(** * Doorman: keyword-driven voice actions over a building directory

    A shallow embedding of [action.py] and [entity.py] together with the
    properties their specification states about them.

    Conventions of the embedding:
    - Python [str] / [bytes] values are [string]s over ASCII characters;
      [str.lower] touches the letters [A]..[Z] only.
    - A YAML value is a [value]; a record (a Python [dict] with string keys)
      is a [gmap string value] living in a heap of dict objects, so that two
      views over the same dict see each other's writes.
    - Effects (speech, logging, shell commands, SMS, the entity file) are
      threaded through a [world] by a small state-and-exception monad. *)

From Stdlib Require Import ZArith Ascii String DecimalString.
From stdpp Require Import base option list strings gmap.

Local Open Scope string_scope.
Local Open Scope list_scope.
Local Open Scope Z_scope.

#[local] Set Warnings "-register-all".

(** ** Exceptions and results *)

Inductive exn : Type :=
  | ValueError
  | IndexError
  | KeyError
  | TypeError
  | OverflowError
  | AttributeError
  | OSError
  | CalledProcessError.

Inductive result (A : Type) : Type :=
  | Ok (a : A)
  | Raise (e : exn).
Arguments Ok {A} a.
Arguments Raise {A} e.

Definition rbind {A B} (r : result A) (k : A → result B) : result B :=
  match r with
  | Ok a => k a
  | Raise e => Raise e
  end.

#[export] Instance result_ret : MRet result := λ A a, Ok a.
#[export] Instance result_bind : MBind result := λ A B k r, rbind r k.

(** ** Python sequences *)

Module Py.

(** [seq[i]] for a Python list: negative indices count from the end,
    anything outside [-len, len) raises [IndexError]. *)
Definition index {A} (l : list A) (i : Z) : result A :=
  let n := Z.of_nat (length l) in
  let j := if i <? 0 then i + n else i in
  if (0 <=? j) && (j <? n) then
    match l !! Z.to_nat j with
    | Some x => Ok x
    | None => Raise IndexError
    end
  else Raise IndexError.

(** [needle in hay] for strings. *)
Fixpoint contains (needle hay : string) : bool :=
  String.prefix needle hay ||
  match hay with
  | EmptyString => false
  | String _ hay' => contains needle hay'
  end.

(** [hay.find(needle)], with [None] where Python has -1. *)
Fixpoint find (needle hay : string) : option nat :=
  if String.prefix needle hay then Some O
  else match hay with
       | EmptyString => None
       | String _ hay' => S <$> find needle hay'
       end.

Definition is_upper (c : ascii) : bool :=
  let n := nat_of_ascii c in (65 <=? n)%nat && (n <=? 90)%nat.
Definition is_lower (c : ascii) : bool :=
  let n := nat_of_ascii c in (97 <=? n)%nat && (n <=? 122)%nat.
Definition is_digit (c : ascii) : bool :=
  let n := nat_of_ascii c in (48 <=? n)%nat && (n <=? 57)%nat.
Definition is_alpha (c : ascii) : bool := is_upper c || is_lower c.
(** ASCII whitespace, as removed by [strip]: space, tab, LF, VT, FF, CR. *)
Definition is_space (c : ascii) : bool :=
  let n := nat_of_ascii c in (n =? 32)%nat || ((9 <=? n)%nat && (n <=? 13)%nat).

Definition lower_char (c : ascii) : ascii :=
  if is_upper c then ascii_of_nat (nat_of_ascii c + 32) else c.

(** [s.lower()] *)
Fixpoint lower (s : string) : string :=
  match s with
  | EmptyString => EmptyString
  | String c s' => String (lower_char c) (lower s')
  end.

(** [s.lstrip()], [s.rstrip()] and [s.strip()] *)
Fixpoint lstrip (s : string) : string :=
  match s with
  | EmptyString => EmptyString
  | String c s' => if is_space c then lstrip s' else s
  end.

Fixpoint rstrip (s : string) : string :=
  match s with
  | EmptyString => EmptyString
  | String c s' =>
      match rstrip s' with
      | EmptyString => if is_space c then EmptyString else String c EmptyString
      | r => String c r
      end
  end.

Definition strip (s : string) : string := rstrip (lstrip s).

(** ['%d' % z] and ['%s' % z] for an integer [z]. *)
Definition str_of_int (z : Z) : string := NilZero.string_of_int (Z.to_int z).

(** [s.replace(old, new)]: occurrences of [old] are found left to right and
    do not overlap.  [skip] counts the characters of a replaced occurrence
    that are still to be dropped. *)
Fixpoint replace_go (old new : string) (skip : nat) (s : string) : string :=
  match s with
  | EmptyString => EmptyString
  | String c s' =>
      match skip with
      | S k => replace_go old new k s'
      | O =>
          if String.prefix old s
          then new +:+ replace_go old new (String.length old - 1) s'
          else String c (replace_go old new 0 s')
      end
  end.

(** With an empty [old], [new] is put before every character and at the end. *)
Fixpoint interleave (new s : string) : string :=
  match s with
  | EmptyString => new
  | String c s' => new +:+ String c (interleave new s')
  end.

Definition replace (old new s : string) : string :=
  match old with
  | EmptyString => interleave new s
  | _ => replace_go old new 0 s
  end.

(** [s.replace(old, new, count)] for [count >= 0]: only the first [count]
    occurrences are replaced, the rest of the text is kept. *)
Fixpoint replace_count_go (old new : string) (count skip : nat) (s : string) : string :=
  match s with
  | EmptyString => EmptyString
  | String c s' =>
      match skip with
      | S k => replace_count_go old new count k s'
      | O =>
          match count with
          | O => s
          | S n =>
              if String.prefix old s
              then new +:+ replace_count_go old new n (String.length old - 1) s'
              else String c (replace_count_go old new count 0 s')
          end
      end
  end.

(** With an empty [old], [new] goes before each of the first characters and,
    if the count is not used up before, at the end. *)
Fixpoint interleave_count (new : string) (count : nat) (s : string) : string :=
  match count with
  | O => s
  | S n =>
      match s with
      | EmptyString => new
      | String c s' => new +:+ String c (interleave_count new n s')
      end
  end.

Definition replace_count (old new : string) (count : nat) (s : string) : string :=
  match old with
  | EmptyString => interleave_count new count s
  | _ => replace_count_go old new count 0 s
  end.

(** [fmt % args] where [args] are already converted to text: [%d] and [%s]
    take the next argument, [%%] is a percent sign. *)
Fixpoint percent (fmt : string) (args : list string) : result string :=
  match fmt with
  | EmptyString =>
      match args with [] => Ok EmptyString | _ => Raise TypeError end
  | String "%" (String "%" fmt') =>
      rbind (percent fmt' args) (λ r, Ok (String "%" r))
  | String "%" (String c fmt') =>
      if Ascii.eqb c "d" || Ascii.eqb c "s" then
        match args with
        | a :: args' => rbind (percent fmt' args') (λ r, Ok (a +:+ r))
        | [] => Raise TypeError
        end
      else Raise ValueError
  | String "%" EmptyString => Raise ValueError
  | String c fmt' => rbind (percent fmt' args) (λ r, Ok (String c r))
  end.

Definition digit_value (c : ascii) : Z := Z.of_nat (nat_of_ascii c) - 48.

(** The digits of an integer literal: decimal digits, where single
    underscores may separate digits.  [after_digit] tells whether the
    previous character was a digit. *)
Fixpoint int_digits (acc : Z) (after_digit : bool) (s : string) : option Z :=
  match s with
  | EmptyString => if after_digit then Some acc else None
  | String c s' =>
      if is_digit c then int_digits (10 * acc + digit_value c) true s'
      else if Ascii.eqb c "_" && after_digit then int_digits acc false s'
      else None
  end.

(** [int(s)] for a string or bytes [s]: surrounding whitespace, an optional
    sign, then the digits; anything else is a [ValueError]. *)
Definition int_of_str (s : string) : result Z :=
  let parsed :=
    match strip s with
    | String "+" r => int_digits 0 false r
    | String "-" r => Z.opp <$> int_digits 0 false r
    | r => int_digits 0 false r
    end in
  match parsed with
  | Some z => Ok z
  | None => Raise ValueError
  end.

(** [a / b] rounded to the nearest integer, ties to the even one ([0 < b]). *)
Definition round_half_even (a b : Z) : Z :=
  let q := a / b in
  let r := a mod b in
  if 2 * r <? b then q
  else if b <? 2 * r then q + 1
  else if Z.even q then q else q + 1.

(** [int(a / b)] for integers [0 <= a] and [0 < b].  Python's [/] on
    integers is true division: the exact quotient is rounded to the nearest
    binary64 number [m * 2^e] (53-bit mantissa, ties to even,
    [OverflowError] beyond the largest float), and [int] truncates it. *)
Definition int_of_true_div (a b : Z) : result Z :=
  if a =? 0 then Ok 0 else
  let e0 := Z.log2 a - Z.log2 b in
  let e1 :=
    if (if 0 <=? e0 then b * 2 ^ e0 <=? a else b <=? a * 2 ^ (- e0))
    then e0 else e0 - 1 in
  let e := Z.max (e1 - 52) (-1074) in
  let m :=
    if 0 <=? e then round_half_even a (b * 2 ^ e)
    else round_half_even (a * 2 ^ (- e)) b in
  if (971 <? e) || ((e =? 971) && (m =? 2 ^ 53)) then Raise OverflowError
  else if 0 <=? e then Ok (m * 2 ^ e)
  else Ok (m / 2 ^ (- e)).

(** Does the character [c] occur in [s]? *)
Fixpoint has_char (c : ascii) (s : string) : bool :=
  match s with
  | EmptyString => false
  | String a s' => Ascii.eqb a c || has_char c s'
  end.

(** The maximal run of characters satisfying [p] at the start of [s], and
    the rest. *)
Fixpoint span (p : ascii → bool) (s : string) : string * string :=
  match s with
  | EmptyString => (EmptyString, EmptyString)
  | String c s' =>
      if p c then let '(run, rest) := span p s' in (String c run, rest)
      else (EmptyString, s)
  end.

(** [re.findall(r'\d+', s)]: the maximal digit runs of [s], left to right.
    [cur] is the digit run being read, if any. *)
Fixpoint findall_digits_go (cur : option string) (s : string) : list string :=
  match s with
  | EmptyString =>
      match cur with Some run => [run] | None => [] end
  | String c s' =>
      if is_digit c then
        findall_digits_go
          (Some (match cur with Some run => run +:+ String c "" | None => String c "" end)) s'
      else
        match cur with
        | Some run => run :: findall_digits_go None s'
        | None => findall_digits_go None s'
        end
  end.
Definition findall_digits (s : string) : list string := findall_digits_go None s.

(** [re.match(r"([0-9]+)([a-z]+)", s, re.I)]: at the start of [s], all the
    leading digits and then all the letters that follow; [None] unless both
    runs are non-empty.  (Giving digits back cannot help the match: the
    character after a shorter digit run is a digit, not a letter.) *)
Definition match_digits_letters (s : string) : option (string * string) :=
  let '(ds, rest) := span is_digit s in
  let '(ls, _) := span is_alpha rest in
  match ds, ls with
  | String _ _, String _ _ => Some (ds, ls)
  | _, _ => None
  end.

End Py.

(** ** SpeakTime *)

Module SpeakTime.

Definition HRS_TEXT : list string :=
  ["midnight"; "one"; "two"; "three"; "four"; "five"; "six";
   "seven"; "eight"; "nine"; "ten"; "eleven"; "twelve"].
Definition MINS_TEXT : list string :=
  ["five"; "ten"; "quarter"; "twenty"; "twenty-five"; "half"].

(** [to_str(dt)] on [dt.hour] and [dt.minute]. *)
Definition to_str (dt_hour dt_minute : Z) : result string :=
  let hour := dt_hour in
  let minute := dt_minute in
  let minute_rounded := (minute + 2) / 5 in
  let minute_is_inverted := 6 <? minute_rounded in
  let '(minute_rounded, hour) :=
    if minute_is_inverted
    then (12 - minute_rounded, (hour + 1) mod 24)
    else (minute_rounded, hour) in
  let hour := if 12 <? hour then hour - 12 else hour in
  if minute_rounded =? 0 then
    if hour =? 0 then Ok "It is midnight."
    else rbind (Py.index HRS_TEXT hour) (λ h, Ok ("It is " +:+ h +:+ " o'clock."))
  else if minute_is_inverted then
    rbind (Py.index MINS_TEXT (minute_rounded - 1)) (λ m,
    rbind (Py.index HRS_TEXT hour) (λ h,
      Ok ("It is " +:+ m +:+ " to " +:+ h +:+ ".")))
  else
    rbind (Py.index MINS_TEXT (minute_rounded - 1)) (λ m,
    rbind (Py.index HRS_TEXT hour) (λ h,
      Ok ("It is " +:+ m +:+ " past " +:+ h +:+ "."))).

End SpeakTime.


(** ** YAML values and the world the program runs in *)

(** What [yaml.load] produces. *)
Inductive value : Type :=
  | VNone
  | VBool (b : bool)
  | VInt (z : Z)
  | VStr (s : string)
  | VList (l : list value)
  | VDict (d : gmap string value).

(** Python truthiness: [if v:]. *)
Definition truthy (v : value) : bool :=
  match v with
  | VNone => false
  | VBool b => b
  | VInt z => negb (z =? 0)
  | VStr s => negb (String.eqb s "")
  | VList l => match l with [] => false | _ => true end
  | VDict d => negb (bool_decide (size d = 0%nat))
  end.

(** [v[0]] *)
Definition subscript0 (v : value) : result value :=
  match v with
  | VList l => Py.index l 0
  | VStr (String c _) => Ok (VStr (String c ""))
  | VStr EmptyString => Raise IndexError
  | VDict _ => Raise KeyError
  | _ => Raise TypeError
  end.

(** [v[key]] for a string [key]. *)
Definition subscript (v : value) (key : string) : result value :=
  match v with
  | VDict d => match d !! key with Some x => Ok x | None => Raise KeyError end
  | _ => Raise TypeError
  end.

(** A record of the directory is a dict object; [loc] is its address. *)
Abbreviation record := (gmap string value).
Abbreviation loc := nat.

(** The entity document as it is stored: two ordered mappings from an
    identifier to a record. *)
Record document : Type := {
  doc_units : list (string * record);
  doc_tenants : list (string * record);
}.

(** An [Entities] object: the file it mirrors and its two mappings, whose
    values are references to dict objects. *)
Record Entities : Type := {
  data_file : string;
  units : list (string * loc);
  tenants : list (string * loc);
}.

Inductive log_level : Type := DEBUG | INFO | ERROR.

(** What the program does to the outside. *)
Inductive event : Type :=
  | EvSay (words : string)
  | EvLog (level : log_level) (fmt : string) (args : list string)
  | EvShell (cmd : string)
  | EvWriteFile (path : string) (doc : document)
  | EvReadFile (path : string)
  | EvSendText (to msg : value).

Record world : Type := {
  heap : list record;                  (* dict objects, by address *)
  files : gmap string document;        (* YAML files, by path *)
  global_entities : option Entities;   (* the module variable of entity.py *)
  words : list string;                 (* Password.words: lines of the word list *)
  shell : string → Z * string;         (* exit status and stdout of a command *)
  rand : list nat;                     (* the draws random.choice will make *)
  trace : list event;                  (* events so far, oldest first *)
}.

Definition set_heap (h : list record) (w : world) : world :=
  {| heap := h; files := files w; global_entities := global_entities w;
     words := words w; shell := shell w; rand := rand w; trace := trace w |}.
Definition set_files (f : gmap string document) (w : world) : world :=
  {| heap := heap w; files := f; global_entities := global_entities w;
     words := words w; shell := shell w; rand := rand w; trace := trace w |}.
Definition set_global_entities (g : option Entities) (w : world) : world :=
  {| heap := heap w; files := files w; global_entities := g;
     words := words w; shell := shell w; rand := rand w; trace := trace w |}.
Definition set_rand (r : list nat) (w : world) : world :=
  {| heap := heap w; files := files w; global_entities := global_entities w;
     words := words w; shell := shell w; rand := r; trace := trace w |}.
Definition set_trace (t : list event) (w : world) : world :=
  {| heap := heap w; files := files w; global_entities := global_entities w;
     words := words w; shell := shell w; rand := rand w; trace := t |}.

(** ** The monad of the embedding: state with exceptions.  The world a
    computation leaves behind is kept also when it raises. *)

Definition M (A : Type) : Type := world → result A * world.

Definition raise {A} (e : exn) : M A := λ w, (Raise e, w).
Definition lift {A} (r : result A) : M A := λ w, (r, w).
Definition gets {A} (f : world → A) : M A := λ w, (Ok (f w), w).
Definition modify (f : world → world) : M unit := λ w, (Ok tt, f w).

#[export] Instance M_ret : MRet M := λ A a w, (Ok a, w).
#[export] Instance M_bind : MBind M := λ A B k m w,
  match m w with
  | (Ok a, w') => k a w'
  | (Raise e, w') => (Raise e, w')
  end.

(** [try: body except (catch): handler] *)
Definition try_except {A} (body : M A) (catch : exn → bool) (handler : M A) : M A :=
  λ w, match body w with
       | (Ok a, w') => (Ok a, w')
       | (Raise e, w') => if catch e then handler w' else (Raise e, w')
       end.

Definition emit (ev : event) : M unit :=
  modify (λ w, set_trace (trace w ++ [ev]) w).

(** The injected speech callback. *)
Definition say (text : string) : M unit := emit (EvSay text).

Definition logging (level : log_level) (fmt : string) (args : list string) : M unit :=
  emit (EvLog level fmt args).

(** The number the random generator gives next. *)
Definition draw (w : world) : nat :=
  match rand w with n :: _ => n | [] => 0%nat end.

(** [random.choice(seq)]: the next draw, reduced to an index of [seq]. *)
Definition choice {A} (seq : list A) : M A :=
  n ← gets draw;
  r ← gets rand;
  modify (set_rand (tail r));;
  match seq !! (n mod length seq)%nat with
  | Some x => mret x
  | None => raise IndexError
  end.

(** [subprocess.check_output(cmd, shell=True)]: a non-zero exit status is a
    [CalledProcessError]. *)
Definition check_output (cmd : string) : M string :=
  emit (EvShell cmd);;
  sh ← gets shell;
  let '(status, out) := sh cmd in
  if status =? 0 then mret out else raise CalledProcessError.

(** [subprocess.call(cmd, shell=True)]: the exit status is the result. *)
Definition call (cmd : string) : M Z :=
  emit (EvShell cmd);;
  sh ← gets shell;
  mret (fst (sh cmd)).

(** ** entity.py *)

Module entity.

(** [yaml.load] builds new dict objects: every record of the mapping is
    allocated at a fresh address. *)
Fixpoint load_mapping (h : list record) (m : list (string * record))
  : list record * list (string * loc) :=
  match m with
  | [] => (h, [])
  | (id, r) :: m' =>
      let '(h', refs) := load_mapping (h ++ [r]) m' in
      (h', (id, length h) :: refs)
  end.

(** [yaml.dump] writes the records the mapping refers to. *)
Definition dump_mapping (h : list record) (m : list (string * loc))
  : list (string * record) :=
  (λ '(id, l), (id, default ∅ (h !! l))) <$> m.

(** The methods of [Entities].  The object is passed as a value and the
    object after the call is the result; [global_entities] holds the one
    object the program creates, so storing the result there is the in-place
    update of the source. *)

Definition import_data (self : Entities) : M Entities :=
  emit (EvReadFile (data_file self));;
  f ← gets files;
  match f !! data_file self with
  | None => raise OSError
  | Some config =>
      h ← gets heap;
      let '(h1, us) := load_mapping h (doc_units config) in
      let '(h2, ts) := load_mapping h1 (doc_tenants config) in
      modify (set_heap h2);;
      mret {| data_file := data_file self; units := us; tenants := ts |}
  end.

Definition serialize_data (self : Entities) : M unit :=
  h ← gets heap;
  let data := {| doc_units := dump_mapping h (units self);
                 doc_tenants := dump_mapping h (tenants self) |} in
  emit (EvWriteFile (data_file self) data);;
  f ← gets files;
  modify (set_files (<[data_file self := data]> f)).

Definition synch_data (self : Entities) : M Entities :=
  serialize_data self;;
  import_data self.

(** [Entities(data_file)]: a new object is loaded from the file and then
    becomes [global_entities]. *)
Definition Entities_init (path : string) : M Entities :=
  self ← import_data {| data_file := path; units := []; tenants := [] |};
  modify (set_global_entities (Some self));;
  mret self.

(** The object [global_entities] refers to; [None] has no attributes. *)
Definition the_entities : M Entities :=
  g ← gets global_entities;
  match g with
  | Some e => mret e
  | None => raise AttributeError
  end.

(** [global_entities.synch_data()] *)
Definition global_synch_data : M unit :=
  self ← the_entities;
  self' ← synch_data self;
  modify (set_global_entities (Some self')).

(** An [Entity] (a [Unit] or a [Tenant]) is a view over one dict object. *)
Record Entity : Type := { data : loc }.
Abbreviation Tenant := Entity (only parsing).
Abbreviation Unit := Entity (only parsing).

(** A [PagingException] wraps the value under ['paging_exception']. *)
Record PagingException : Type := { pe_data : value }.

Definition get_data (self : Entity) : M record :=
  h ← gets heap;
  mret (default ∅ (h !! data self)).

Definition paging_exception (self : Entity) : M (option PagingException) :=
  d ← get_data self;
  match d !! "paging_exception" with
  | Some v => mret (Some {| pe_data := v |})
  | None => mret None
  end.

(** [self.data[key]] *)
Definition field (self : Entity) (key : string) : M value :=
  d ← get_data self;
  match d !! key with
  | Some v => mret v
  | None => raise KeyError
  end.

(** [Entity.synonyms]: every synonym lowercased.  A list must hold strings
    ([lower] is a string method); a bare string is iterated character by
    character. *)
Definition synonyms_of (syn : value) : result (list string) :=
  match syn with
  | VList l =>
      mapM (M := result)
        (λ v, match v with VStr s => Ok (Py.lower s) | _ => Raise AttributeError end) l
  | VStr s =>
      Ok ((λ c, Py.lower (String c EmptyString)) <$> list_ascii_of_string s)
  | _ => Raise TypeError
  end.

Definition synonyms (self : Entity) : M (list string) :=
  syn ← field self "synonyms";
  lift (synonyms_of syn).

Definition default_password : string := "asdfqlwevnwaevnwlvjwekfnsedhsadhfwe".

Definition name (self : Tenant) : M value :=
  syn ← field self "synonyms";
  lift (subscript0 syn).

Definition address (self : Unit) : M value :=
  syn ← field self "synonyms";
  lift (subscript0 syn).

Definition phone_no (self : Tenant) : M value :=
  d ← get_data self;
  match d !! "phone_no" with
  | Some v => mret v
  | None => mret (VStr "")
  end.

Definition password (self : Tenant) : M value :=
  d ← get_data self;
  match d !! "password" with
  | Some v => if truthy v then mret v else mret (VStr default_password)
  | None => mret (VStr default_password)
  end.

(** [self.data['password'] = value] on the dict object itself, then the
    whole document is written and read back. *)
Definition set_password (self : Tenant) (v : value) : M unit :=
  d ← get_data self;
  h ← gets heap;
  modify (set_heap (<[data self := <["password" := v]> d]> h));;
  global_synch_data.

(** [mapping[id]] on one of the two mappings of an [Entities] object. *)
Fixpoint mapping_get {A} (m : list (string * A)) (id : string) : result A :=
  match m with
  | [] => Raise KeyError
  | (k, x) :: m' => if String.eqb k id then Ok x else mapping_get m' id
  end.

(** [Tenant(global_entities.tenants[id])] *)
Definition tenant_of (id : string) : M Tenant :=
  self ← the_entities;
  l ← lift (mapping_get (tenants self) id);
  mret {| data := l |}.

(** Reading the document back: a new [Entities] object is loaded from the
    file, and the tenant's password is read from it. *)
Definition reloaded_password (path id : string) : M value :=
  Entities_init path;;
  t ← tenant_of id;
  password t.

(** [PagingException.message] *)
Definition message (self : PagingException) : result (list value) :=
  rbind (subscript (pe_data self) "message") (λ msg,
    match msg with
    | VList l => Ok l
    | _ => Ok [msg]
    end).

(** [PagingException.action] is a stub returning [None], so [run] does
    nothing. *)
Definition pe_run (self : PagingException) : M value := mret VNone.

End entity.

(** ** action.py *)

(** Modelled from the spec: [_] is the gettext hook that [aiy.i18n] installs,
    which is not among the sources; the spec has the English phrases spoken
    as they are written, so the hook leaves its argument unchanged. *)
Definition gettext (s : string) : string := s.

(** A value used where only a string works: as the left operand of [in], as
    the argument of [str.replace] or of a regular expression.  Any other value
    raises [TypeError]. *)
Definition as_str (v : value) : result string :=
  match v with
  | VStr s => Ok s
  | _ => Raise TypeError
  end.

(** A value whose [replace] method is called: only a string has one. *)
Definition str_receiver (v : value) : result string :=
  match v with
  | VStr s => Ok s
  | _ => Raise AttributeError
  end.

Definition dq : string := String (ascii_of_nat 34) EmptyString.

Module VolumeControl.

Definition GET_VOLUME : string :=
  "amixer get Master | grep " +:+ dq +:+ "Front Left:" +:+ dq +:+
  " | sed " +:+ dq +:+ "s/.*\[\([0-9]\+\)%\].*/\1/" +:+ dq.
Definition SET_VOLUME : string := "amixer -q set Master %d%%".

Record t : Type := { change : Z }.

Definition catches (e : exn) : bool :=
  match e with
  | ValueError | CalledProcessError => true
  | _ => false
  end.

Definition run (self : t) (voice_command : string) : M unit :=
  out ← check_output GET_VOLUME;
  let res := Py.strip out in
  try_except
    (logging INFO "volume: %s" [res];;
     v ← lift (Py.int_of_str res);
     let vol := v + change self in
     let vol := Z.max 0 (Z.min 100 vol) in
     cmd ← lift (Py.percent SET_VOLUME [Py.str_of_int vol]);
     call cmd;;
     text ← lift (Py.percent (gettext "Volume at %d %%.") [Py.str_of_int vol]);
     say text)
    catches
    (say (gettext "Sorry, I couldn't do that");;
     logging ERROR "Error using amixer to adjust volume." []).

End VolumeControl.

Module Messenger.

(** [send_text(to, msg)]: one message handed to the SMS provider. *)
Definition send_text (to msg : value) : M unit := emit (EvSendText to msg).

End Messenger.

Module Password.

(** [Password(tenant).new_word()] *)
Definition new_word (tenant : entity.Tenant) : M value :=
  ws ← gets words;
  line ← choice ws;
  entity.set_password tenant (VStr (Py.rstrip line));;
  to ← entity.phone_no tenant;
  pw ← entity.password tenant;
  Messenger.send_text to pw;;
  entity.password tenant.

End Password.

Module GainEntry.

Definition pass_responses : list string :=
  ["hello, $tenant, have a wonderful day";
   "good day, $tenant, nice to see you";
   "howdy, $tenant!  another lovely day in the city"].
Definition fail_responses : list string :=
  ["sorry, i could not let you in";
   "authorization has been denied.  please try again";
   "please check your password, it didn't match";
   "try spelling it out slowly next time"].
Definition synonyms : list string :=
  ["let me in"; "open up"; "open the door"; "knock knock"].
Definition token : string := "$tenant".

Record t : Type := { tenant : entity.Tenant }.

(** [GainEntry(say, tenants)]: the tenant is [tenants['Bryan']]. *)
Definition init (tenants : list (string * loc)) : result t :=
  l ← entity.mapping_get tenants "Bryan";
  mret {| tenant := {| entity.data := l |} |}.

Definition run (self : t) (voice_command : string) : M Z :=
  pw ← entity.password (tenant self);
  pw ← lift (as_str pw);
  '(response, passed) ←
    (if Py.contains pw (Py.lower voice_command) then
       pw ← entity.password (tenant self);
       pw ← lift (as_str pw);
       response ← lift (Py.percent "that is the correct password: %s. " [pw]);
       r ← choice pass_responses;
       mret (response +:+ r, true)
     else
       let response := "i didn't recognize the password. " in
       r ← choice fail_responses;
       mret (response +:+ r, false));
  name ← entity.name (tenant self);
  name ← lift (as_str name);
  let response := Py.replace token name response in
  say response;;
  (if passed : bool then Password.new_word (tenant self);; mret tt else mret tt);;
  mret 1.

End GainEntry.

Module RequestPassword.

Definition synonyms : list string := ["password"; "forgot"; "help"].
Definition responses : list string :=
  ["ok, $tenant, i've sent you a new password";
   "ok, $tenant, check your messages";
   "you got it, $tenant, i just texted you a new one."].
Definition token : string := "$tenant".

Record t : Type := { tenant : entity.Tenant }.

(** [RequestPassword(say, tenants)]: the tenant is [tenants['Bryan']]. *)
Definition init (tenants : list (string * loc)) : result t :=
  l ← entity.mapping_get tenants "Bryan";
  mret {| tenant := {| entity.data := l |} |}.

Definition run (self : t) (voice_command : string) : M unit :=
  Password.new_word (tenant self);;
  response ← choice responses;
  name ← entity.name (tenant self);
  name ← lift (as_str name);
  say (Py.replace token name response).

End RequestPassword.

Module PageUnit.

Definition entity_token : string := "$unit".
Definition responses : list string :=
  ["please wait. paging unit $unit";
   "ok. paging unit $unit";
   "hang on while i page unit $unit";
   "you got it. paging unit $unit"].

Record t : Type := { unit : entity.Unit; self_responses : list value }.

(** [PageUnit(say, unit)]: a paging exception replaces the responses. *)
Definition init (u : entity.Unit) : M t :=
  pe ← entity.paging_exception u;
  match pe with
  | Some pe =>
      msg ← lift (entity.message pe);
      mret {| unit := u; self_responses := msg |}
  | None => mret {| unit := u; self_responses := VStr <$> responses |}
  end.

(** The body of the [try] of [say_unit]. *)
Definition say_unit_try (unit : string) : result string :=
  run ← Py.index (Py.findall_digits unit) 0;
  val ← Py.int_of_str run;
  let suf :=
    match Py.match_digits_letters unit with
    | Some (n, suf) => suf
    | None => ""
    end in
  hun ← Py.int_of_true_div val 100;
  let rem := val - hun * 100 in
  Py.percent "%s %s %s" [Py.str_of_int hun; Py.str_of_int rem; suf].

(** [say_unit(unit)]: any exception gives the argument back. *)
Definition say_unit (unit : string) : string :=
  match say_unit_try unit with
  | Ok ret => ret
  | Raise _ => unit
  end.

Definition run (self : t) (voice_command : string) : M value :=
  response ← choice (self_responses self);
  response ← lift (str_receiver response);
  addr ← entity.address (unit self);
  addr ← lift (as_str addr);
  say (Py.replace entity_token (say_unit addr) response);;
  pe ← entity.paging_exception (unit self);
  match pe with
  | Some pe => entity.pe_run pe
  | None => mret (VInt 1)
  end.

End PageUnit.

Module PageTenant.

Definition entity_token : string := "$tenant".
Definition responses : list string :=
  ["ok, paging $tenant";
   "ok, please stand by while i page $tenant";
   "sure, please wait while i page $tenant";
   "paging $tenant, please stand by";
   "ok, hang on while i page $tenant"].

Record t : Type := { tenant : entity.Tenant; self_responses : list value }.

Definition init (tn : entity.Tenant) : M t :=
  pe ← entity.paging_exception tn;
  match pe with
  | Some pe =>
      msg ← lift (entity.message pe);
      mret {| tenant := tn; self_responses := msg |}
  | None => mret {| tenant := tn; self_responses := VStr <$> responses |}
  end.

Definition run (self : t) (voice_command : string) : M value :=
  response ← choice (self_responses self);
  response ← lift (str_receiver response);
  name ← entity.name (tenant self);
  name ← lift (as_str name);
  say (Py.replace entity_token name response);;
  pe ← entity.paging_exception (tenant self);
  match pe with
  | Some pe => entity.pe_run pe
  | None => mret (VInt 1)
  end.

End PageTenant.

Module SpeakAction.

Record t : Type := { words : string }.

Definition run (self : t) (voice_command : string) : M unit :=
  say (words self).

End SpeakAction.

Module SpeakShellCommandOutput.

Record t : Type := { shell_command : string; failure_text : string }.

(** [if output:] and [elif self.failure_text:] test for the empty string. *)
Definition run (self : t) (voice_command : string) : M unit :=
  out ← check_output (shell_command self);
  let output := Py.strip out in
  if negb (String.eqb output "") then say output
  else if negb (String.eqb (failure_text self) "") then say (failure_text self)
  else mret tt.

End SpeakShellCommandOutput.

Module RepeatAfterMe.

Record t : Type := { keyword : string }.

Definition run (self : t) (voice_command : string) : M unit :=
  let to_repeat := Py.replace_count (keyword self) "" 1 voice_command in
  say to_repeat.

End RepeatAfterMe.

(** ** actionbase.py: the keyword dispatcher *)

Module actionbase.
Section Actor.

(** The action handlers: anything with a [run(utterance)] method. *)
Context {handler : Type}.

(** Modelled from the spec: [actionbase.Actor] is imported by [action.py]
  but is not among the sources.  The registry is the ordered list of
  (keyword phrases, handler) entries in registration order. *)
Definition registry : Type := list (list string * handler).

(** Modelled from the spec: [add_keyword(phrases, handler)] registers the
  phrases, all routed to the same handler, after the entries already
  there. *)
Definition add_keyword (phrases : list string) (h : handler) (reg : registry)
: registry :=
reg ++ [(phrases, h)].

(** Modelled from the spec: a phrase matches when it is a case-insensitive
  substring of the utterance. *)
Definition phrase_matches (utterance phrase : string) : bool :=
Py.contains (Py.lower phrase) (Py.lower utterance).

Definition entry_matches (utterance : string) (e : list string * handler) : bool :=
existsb (phrase_matches utterance) e.1.

(** Modelled from the spec: [handle(utterance)] scans the registry in
  registration order and, for the first entry one of whose phrases
  matches, invokes [handler.run(utterance)] and stops; if no entry
  matches, no handler runs.  The result is the list of the calls
  [handler.run(argument)] made. *)
Fixpoint handle (reg : registry) (utterance : string) : list (handler * string) :=
match reg with
| [] => []
| e :: reg' =>
    if entry_matches utterance e then [(e.2, utterance)]
    else handle reg' utterance
end.

End Actor.
End actionbase.

(** ** make_actor: the handlers, registered *)

Module Actor.

(** The handlers [make_actor] registers. *)
Inductive handler : Type :=
  | HPageUnit (h : PageUnit.t)
  | HPageTenant (h : PageTenant.t)
  | HGainEntry (h : GainEntry.t)
  | HRequestPassword (h : RequestPassword.t).

(** [handler.run(voice_command)], its result dropped. *)
Definition run (h : handler) (voice_command : string) : M unit :=
  match h with
  | HPageUnit h => PageUnit.run h voice_command;; mret tt
  | HPageTenant h => PageTenant.run h voice_command;; mret tt
  | HGainEntry h => GainEntry.run h voice_command;; mret tt
  | HRequestPassword h => RequestPassword.run h voice_command
  end.

(** [for item in entities.units.values(): ...] *)
Fixpoint add_units (items : list (string * loc)) (actor : actionbase.registry)
  : M (actionbase.registry (handler := handler)) :=
  match items with
  | [] => mret actor
  | (_, item) :: items' =>
      let unit := {| entity.data := item |} in
      syn ← entity.synonyms unit;
      h ← PageUnit.init unit;
      add_units items' (actionbase.add_keyword syn (HPageUnit h) actor)
  end.

(** [for item in entities.tenants.values(): ...] *)
Fixpoint add_tenants (items : list (string * loc)) (actor : actionbase.registry)
  : M (actionbase.registry (handler := handler)) :=
  match items with
  | [] => mret actor
  | (_, item) :: items' =>
      let tenant := {| entity.data := item |} in
      syn ← entity.synonyms tenant;
      h ← PageTenant.init tenant;
      add_tenants items' (actionbase.add_keyword syn (HPageTenant h) actor)
  end.

(** [make_actor(say)]; the commands under [if False:] are left out. *)
Definition make_actor : M (actionbase.registry (handler := handler)) :=
  entities ← entity.Entities_init "/home/pi/entities2.yml";
  actor ← add_units (units entities) [];
  actor ← add_tenants (tenants entities) actor;
  ge ← lift (GainEntry.init (tenants entities));
  let actor := actionbase.add_keyword GainEntry.synonyms (HGainEntry ge) actor in
  rp ← lift (RequestPassword.init (tenants entities));
  let actor := actionbase.add_keyword RequestPassword.synonyms (HRequestPassword rp) actor in
  mret actor.

(** The calls [handle] decides on, carried out. *)
Fixpoint perform (calls : list (handler * string)) : M unit :=
  match calls with
  | [] => mret tt
  | (h, argument) :: calls' => run h argument;; perform calls'
  end.

(** [actor.handle(utterance)] *)
Definition handle (actor : actionbase.registry) (utterance : string) : M unit :=
  perform (actionbase.handle actor utterance).

End Actor.

(** ** The statements of the specification, in the words of the specification *)

Module Spec.

Definition hour_words : list string :=
  ["midnight"; "one"; "two"; "three"; "four"; "five"; "six";
   "seven"; "eight"; "nine"; "ten"; "eleven"; "twelve"].
Definition minute_words : list string :=
  ["five"; "ten"; "quarter"; "twenty"; "twenty-five"; "half"].

Definition word (table : list string) (i : Z) : string :=
  nth (Z.to_nat i) table "".

(** The time phrase as the specification describes it: round to five-minute
    increments, turn increments above 6 into minutes to the next hour, go to
    the 12-hour clock, then choose the wording. *)
Definition time_phrase (hour minute : Z) : string :=
  let increment := (minute + 2) / 5 in
  let to_next_hour := 6 <? increment in
  let increment' := if to_next_hour then 12 - increment else increment in
  let hour' := if to_next_hour then (hour + 1) mod 24 else hour in
  let hour12 := if 12 <? hour' then hour' - 12 else hour' in
  if increment' =? 0 then
    if hour12 =? 0 then "It is midnight."
    else "It is " +:+ word hour_words hour12 +:+ " o'clock."
  else
    "It is " +:+ word minute_words (increment' - 1) +:+
    (if to_next_hour then " to " else " past ") +:+
    word hour_words hour12 +:+ ".".

(** The hour named after rounding up from [hour]. *)
Definition next_hour12 (hour : Z) : Z :=
  let h := (hour + 1) mod 24 in
  if 12 <? h then h - 12 else h.

(** Case-insensitive containment: [needle] occurs in [hay] when the case of
    letters is ignored on both sides. *)
Definition contains_ci (needle hay : string) : bool :=
  Py.contains (Py.lower needle) (Py.lower hay).

Definition clamp (lo hi x : Z) : Z := Z.max lo (Z.min hi x).

(** Do all characters of [s] satisfy [p]? *)
Fixpoint all_chars (p : ascii → bool) (s : string) : bool :=
  match s with
  | EmptyString => true
  | String c s' => p c && all_chars p s'
  end.

Definition not_digit (c : ascii) : bool := negb (Py.is_digit c).

(** The number a run of decimal digits denotes. *)
Fixpoint decimal_from (acc : Z) (ds : string) : Z :=
  match ds with
  | EmptyString => acc
  | String c ds' => decimal_from (10 * acc + Py.digit_value c) ds'
  end.
Definition decimal (ds : string) : Z := decimal_from 0 ds.

(** What [GainEntry] says when the password was given: the confirmation
    with the password, a greeting, and the tenant's name for the
    placeholder. *)
Definition success_phrase (name pw phrase : string) : string :=
  Py.replace GainEntry.token name
    ("that is the correct password: " +:+ pw +:+ ". " +:+ phrase).

(** What [GainEntry] says otherwise. *)
Definition failure_phrase (name phrase : string) : string :=
  Py.replace GainEntry.token name ("i didn't recognize the password. " +:+ phrase).


(** Does [s] start with a digit? *)
Definition starts_with_digit (s : string) : bool :=
  match s with
  | String c _ => Py.is_digit c
  | EmptyString => false
  end.

(** From 23:33 to 0:32. *)
Definition around_midnight (hour minute : Z) : bool :=
  ((hour =? 0) && (minute <=? 32)) || ((hour =? 23) && (33 <=? minute)).


End Spec.

(** Does a computation return exactly this string? *)
Definition result_eqb (r : result string) (s : string) : bool :=
  match r with
  | Ok s' => String.eqb s' s
  | Raise _ => false
  end.

(** ** What the properties of a tenant read from its record *)

Module View.

(** [Tenant.password] as a function of the record. *)
Definition password_of (r : record) : value :=
  match r !! "password" with
  | Some v => if truthy v then v else VStr entity.default_password
  | None => VStr entity.default_password
  end.

(** [Tenant.name] as a function of the record. *)
Definition name_of (r : record) : result value :=
  match r !! "synonyms" with
  | Some syn => subscript0 syn
  | None => Raise KeyError
  end.

(** [Tenant.phone_no] as a function of the record. *)
Definition phone_of (r : record) : value :=
  match r !! "phone_no" with
  | Some v => v
  | None => VStr ""
  end.

End View.

(** ** The entity store after a write, in closed form *)

Module Store.

(** The references [yaml.load] hands out for a mapping when the heap has
    [n] objects. *)
Definition fresh_refs (n : nat) (m : list (string * record)) : list (string * loc) :=
  imap (λ i e, (e.1, (n + i)%nat)) m.

(** The document [serialize_data] writes for the store [ge] over heap [h]. *)
Definition stored_doc (h : list record) (ge : Entities) : document :=
  {| doc_units := entity.dump_mapping h (units ge);
     doc_tenants := entity.dump_mapping h (tenants ge) |}.

(** The heap once ['password'] of the dict at [l] has been assigned. *)
Definition assigned (w : world) (l : loc) (v : value) : list record :=
  <[l := <["password" := v]> (default ∅ (heap w !! l))]> (heap w).

(** The store once the document written from heap [h] has been read back. *)
Definition reloaded_entities (h : list record) (ge : Entities) : Entities :=
  {| data_file := data_file ge;
     units := fresh_refs (length h) (doc_units (stored_doc h ge));
     tenants := fresh_refs (length (h ++ (doc_units (stored_doc h ge)).*2))
                  (doc_tenants (stored_doc h ge)) |}.

(** The world after [Tenant.password = v] on the dict at [l]. *)
Definition written (w : world) (ge : Entities) (l : loc) (v : value) : world :=
  let h := assigned w l v in
  {| heap := (h ++ (doc_units (stored_doc h ge)).*2) ++ (doc_tenants (stored_doc h ge)).*2;
     files := <[data_file ge := stored_doc h ge]> (files w);
     global_entities := Some (reloaded_entities h ge);
     words := words w; shell := shell w; rand := rand w;
     trace := trace w ++ [EvWriteFile (data_file ge) (stored_doc h ge);
                          EvReadFile (data_file ge)] |}.

End Store.

(** ** Sample worlds, for evaluating the programs *)

Module Sample.

Definition newline : string := String (ascii_of_nat 10) EmptyString.

(** A machine whose mixer reports the volume [vol] and whose other
    commands succeed silently; nothing else is set up. *)
Definition mixer (vol : string) (cmd : string) : Z * string :=
  if String.eqb cmd VolumeControl.GET_VOLUME then (0, vol +:+ newline) else (0, "").

(** A machine on which every command fails with status 1. *)
Definition broken_shell (cmd : string) : Z * string := (1, "").

(** A machine on which only the volume query works. *)
Definition no_setter (vol : string) (cmd : string) : Z * string :=
  if String.eqb cmd VolumeControl.GET_VOLUME then (0, vol +:+ newline) else (1, "").

Definition bare (sh : string → Z * string) : world :=
  {| heap := []; files := ∅; global_entities := None; words := [];
     shell := sh; rand := []; trace := [] |}.

(** A unit whose paging is overridden by a single message. *)
Definition away_unit : record :=
  <["synonyms" := VList [VStr "453a"]]>
    (<["paging_exception" :=
         VDict (<["message" := VStr "unit $unit is away"]> ∅)]> ∅).

Definition path : string := "/home/pi/entities2.yml".

Definition unit_453 : record :=
  <["synonyms" := VList [VStr "453A"]]> (<["floor" := VInt 4]> ∅).

(** A tenant without a password. *)
Definition bryan : record :=
  <["synonyms" := VList [VStr "Bryan"; VStr "Brian"]]>
    (<["unit" := VStr "453A"]> (<["phone_no" := VStr "+15550100"]> ∅)).

Definition directory : document :=
  {| doc_units := [("453A", unit_453)]; doc_tenants := [("Bryan", bryan)] |}.

(** The machine before the program starts: the entity file is on disk,
    the word list is loaded, nothing else has happened. *)
Definition installed (doc : document) (draws : list nat) : world :=
  {| heap := []; files := <[path := doc]> ∅; global_entities := None;
     words := ["alpha" +:+ newline; "bravo" +:+ newline; "charlie" +:+ newline];
     shell := broken_shell; rand := draws; trace := [] |}.

(** Two assignments to [password] through one [Tenant] view, then the
    password as the view has it and as the file has it. *)
Definition write_twice (v1 v2 : value) : M (value * value) :=
  entity.Entities_init path;;
  t ← entity.tenant_of "Bryan";
  entity.set_password t v1;;
  entity.set_password t v2;;
  own ← entity.password t;
  stored ← entity.reloaded_password path "Bryan";
  mret (own, stored).

(** One assignment, then the same two readings. *)
Definition write_once (v : value) : M (value * value) :=
  entity.Entities_init path;;
  t ← entity.tenant_of "Bryan";
  entity.set_password t v;;
  own ← entity.password t;
  stored ← entity.reloaded_password path "Bryan";
  mret (own, stored).

(** The assistant is started and hears two requests for a new password;
    then the document is read back. *)
Definition forgot_twice : M value :=
  actor ← Actor.make_actor;
  Actor.handle actor "i forgot my password";;
  Actor.handle actor "help";;
  entity.reloaded_password path "Bryan".

(** The keyword phrases of the registry [make_actor] builds, in order. *)
Definition registered_phrases : M (list (list string)) :=
  actor ← Actor.make_actor;
  mret (fst <$> actor).

(** What the user hears and what is texted. *)
Definition heard_and_texted (t : list event) : list event :=
  List.filter (λ ev, match ev with EvSay _ | EvSendText _ _ => true | _ => false end) t.

(** The store and the machine once [Entities(path)] has run on
    [installed directory draws]. *)
Definition loaded_entities : Entities :=
  {| data_file := path; units := [("453A", 0%nat)]; tenants := [("Bryan", 1%nat)] |}.

Definition loaded (draws : list nat) : world :=
  {| heap := [unit_453; bryan]; files := <[path := directory]> ∅;
     global_entities := Some loaded_entities;
     words := ["alpha" +:+ newline; "bravo" +:+ newline; "charlie" +:+ newline];
     shell := broken_shell; rand := draws; trace := [EvReadFile path] |}.

(** Bryan with a password on file. *)
Definition bryan_with (pw : string) : record := <["password" := VStr pw]> bryan.

(** The loaded store with that password, as [GainEntry] finds it. *)
Definition door (pw : string) (draws : list nat) : world :=
  {| heap := [unit_453; bryan_with pw];
     files := <[path := {| doc_units := [("453A", unit_453)];
                           doc_tenants := [("Bryan", bryan_with pw)] |}]> ∅;
     global_entities := Some loaded_entities;
     words := ["alpha" +:+ newline; "bravo" +:+ newline; "charlie" +:+ newline];
     shell := broken_shell; rand := draws; trace := [] |}.

(** The [GainEntry] handler of [make_actor]: its tenant is Bryan. *)
Definition gain_entry : GainEntry.t :=
  {| GainEntry.tenant := {| entity.data := 1%nat |} |}.

(** A unit whose paging exception has no message at all. *)
Definition silent_unit : record :=
  <["synonyms" := VList [VStr "12b"]]>
    (<["paging_exception" := VDict (<["message" := VList []]> ∅)]> ∅).

(** The loaded store of [door], with another word list. *)
Definition door_with_words (ws : list string) (pw : string) (draws : list nat) : world :=
  {| heap := [unit_453; bryan_with pw];
     files := <[path := {| doc_units := [("453A", unit_453)];
                           doc_tenants := [("Bryan", bryan_with pw)] |}]> ∅;
     global_entities := Some loaded_entities;
     words := ws;
     shell := broken_shell; rand := draws; trace := [] |}.

(** The [RequestPassword] handler of [make_actor]. *)
Definition request_password : RequestPassword.t :=
  {| RequestPassword.tenant := {| entity.data := 1%nat |} |}.

(** A command that reports the address of the machine, and its handler. *)
Definition ip_command : string := "ip -4 route get 1 | head -1 | cut -d' ' -f8".
Definition speak_ip : SpeakShellCommandOutput.t :=
  {| SpeakShellCommandOutput.shell_command := ip_command;
     SpeakShellCommandOutput.failure_text :=
       "I do not have an ip address assigned to me." |}.

(** A machine without a network: the command prints an empty line. *)
Definition offline (cmd : string) : Z * string := (0, " " +:+ newline).


Definition with_heap (h : list record) : world :=
  {| heap := h; files := ∅; global_entities := None; words := [];
     shell := broken_shell; rand := []; trace := [] |}.

End Sample.

(** ** Tactics for running a program of the monad *)

Ltac run_prog :=
  unfold try_except, check_output, call, logging, say, emit, modify, gets, lift, raise;
  unfold mbind, M_bind, mret, M_ret;
  cbn [shell set_trace trace heap files global_entities words rand].

Ltac same_world :=
  unfold set_trace, set_heap, set_files, set_global_entities, set_rand;
  cbn [heap files global_entities words shell rand trace];
  rewrite <- ?app_assoc; reflexivity.

(** * Properties *)

(** ** SpeakTime *)

Lemma result_eqb_true r s : result_eqb r s = true → r = Ok s.
Proof.
  destruct r as [s'|e]; simpl; [|discriminate].
  intros H. apply String.eqb_eq in H. by subst.
Qed.

Lemma to_str_table :
  forallb (λ h, forallb (λ m,
    result_eqb (SpeakTime.to_str h m) (Spec.time_phrase h m)) (seqZ 0 60))
    (seqZ 0 24) = true.
Proof. vm_compute. reflexivity. Qed.

Lemma to_str_in_range (h m : Z) :
  0 <= h < 24 → 0 <= m < 60 →
  SpeakTime.to_str h m = Ok (Spec.time_phrase h m).
Proof.
  intros Hh Hm. apply result_eqb_true.
  pose proof to_str_table as T.
  rewrite forallb_forall in T.
  assert (Hin : In h (seqZ 0 24)).
  { apply list_elem_of_In, elem_of_seqZ. lia. }
  specialize (T h Hin). rewrite forallb_forall in T.
  apply T. apply list_elem_of_In, elem_of_seqZ. lia.
Qed.

(** C5: for every hour in 0..23 and minute in 0..59, [SpeakTime.to_str]
    returns the phrase the specification's algorithm describes (rounding by
    [(minute + 2) // 5], inversion above 6 with the hour advanced modulo 24,
    12-hour form, then midnight / o'clock / past / to wording from the two
    word tables); 4:00 is "It is four o'clock.", 0:00 is "It is midnight."
    and 16:47 is "It is quarter to five.". *)
Theorem to_str_follows_time_phrase :
  (∀ hour minute : Z,
     0 <= hour < 24 → 0 <= minute < 60 →
     SpeakTime.to_str hour minute = Ok (Spec.time_phrase hour minute)) ∧
  SpeakTime.HRS_TEXT = Spec.hour_words ∧
  SpeakTime.MINS_TEXT = Spec.minute_words ∧
  SpeakTime.to_str 4 0 = Ok "It is four o'clock." ∧
  SpeakTime.to_str 0 0 = Ok "It is midnight." ∧
  SpeakTime.to_str 16 47 = Ok "It is quarter to five.".
Proof.
  split; [exact to_str_in_range|].
  repeat split; reflexivity.
Qed.

Lemma to_str_follows_time_phrase_witness :
  SpeakTime.to_str 9 20 = Ok "It is twenty past nine.".
Proof.
  exact (proj1 to_str_follows_time_phrase 9 20 ltac:(lia) ltac:(lia)).
Defined.

(** C6 (as amended): for every hour in 0..23, [SpeakTime.to_str] at minute 58
    rounds up to the next hour and names it with the o'clock wording, "It is
    <next-hour-word> o'clock.", or "It is midnight." when the next hour is
    0; the rounded increment is 0, so neither "to" nor "past" is used. *)
Theorem to_str_minute_58_next_hour (hour : Z) :
  0 <= hour < 24 →
  SpeakTime.to_str hour 58 =
    Ok (if Spec.next_hour12 hour =? 0 then "It is midnight."
        else "It is " +:+ Spec.word Spec.hour_words (Spec.next_hour12 hour)
             +:+ " o'clock.").
Proof.
  intros Hh. rewrite to_str_in_range by lia. reflexivity.
Qed.

Lemma to_str_minute_58_next_hour_witness :
  SpeakTime.to_str 16 58 = Ok "It is five o'clock.".
Proof.
  exact (to_str_minute_58_next_hour 16 ltac:(lia)).
Defined.

(** C6 as stated fails: at 16:58 the result is not of the form
    "It is <minute-word> to <hour-word>." for any words of the two tables. *)
Lemma to_str_minute_58_not_to_phrase :
  ¬ ∃ minute_word hour_word : string,
      minute_word ∈ SpeakTime.MINS_TEXT ∧ hour_word ∈ SpeakTime.HRS_TEXT ∧
      SpeakTime.to_str 16 58 =
        Ok ("It is " +:+ minute_word +:+ " to " +:+ hour_word +:+ ".").
Proof.
  intros (mw & hw & Hm & Hh & Heq).
  unfold SpeakTime.MINS_TEXT in Hm. unfold SpeakTime.HRS_TEXT in Hh.
  vm_compute in Heq.
  repeat (apply elem_of_cons in Hm as [->|Hm]);
    try (by apply elem_of_nil in Hm);
    repeat (apply elem_of_cons in Hh as [->|Hh]);
    try (by apply elem_of_nil in Hh);
    discriminate Heq.
Qed.

(** ** The keyword dispatcher *)

Section ActorProperties.

Context {handler : Type}.
Implicit Types (reg : actionbase.registry (handler := handler)).
Implicit Types (e : list string * handler).






(** Registration appends: an entry added later never takes an utterance
    away from an entry registered before it. *)
Lemma handle_add_keyword reg phrases h utterance :
  actionbase.handle (actionbase.add_keyword phrases h reg) utterance =
    match actionbase.handle reg utterance with
    | [] => if actionbase.entry_matches utterance (phrases, h)
            then [(h, utterance)] else []
    | calls => calls
    end.
Proof.
  unfold actionbase.add_keyword.
  induction reg as [|e reg IH]; simpl.
  - by destruct (actionbase.entry_matches _ _).
  - by destruct (actionbase.entry_matches utterance e).
Qed.


End ActorProperties.


(** ** VolumeControl *)

Lemma percent_set_volume s :
  Py.percent VolumeControl.SET_VOLUME [s] = Ok ("amixer -q set Master " +:+ s +:+ "%").
Proof. reflexivity. Qed.

Lemma percent_volume_at s :
  Py.percent (gettext "Volume at %d %%.") [s] = Ok ("Volume at " +:+ s +:+ " %.").
Proof. reflexivity. Qed.

Lemma VolumeControl_run_ok (w : world) (self : VolumeControl.t)
    (voice_command out : string) (v : Z) :
  shell w VolumeControl.GET_VOLUME = (0, out) →
  Py.int_of_str (Py.strip out) = Ok v →
  VolumeControl.run self voice_command w =
    (Ok tt,
     set_trace (trace w ++
       [EvShell VolumeControl.GET_VOLUME;
        EvLog INFO "volume: %s" [Py.strip out];
        EvShell ("amixer -q set Master " +:+
                 Py.str_of_int (Spec.clamp 0 100 (v + VolumeControl.change self)) +:+ "%");
        EvSay ("Volume at " +:+
               Py.str_of_int (Spec.clamp 0 100 (v + VolumeControl.change self)) +:+ " %.")])
       w).
Proof.
  intros Hq Hp.
  unfold VolumeControl.run. run_prog.
  rewrite Hq. cbn [Z.eqb]. cbn [set_trace trace]. rewrite Hp.
  rewrite percent_set_volume, percent_volume_at.
  unfold Spec.clamp. same_world.
Qed.

(** C7: whenever the volume query succeeds and its output parses as the
    integer [v], [VolumeControl.run] with change [d] runs the setter with
    [max(0, min(100, v + d))] and then speaks "Volume at <that> %."; volume 50
    with change +10 sets 60 and speaks "Volume at 60 %.", volume 95 with
    change +10 is clamped to 100. *)
Theorem VolumeControl_run_sets_clamped_and_speaks :
  (∀ (w : world) (self : VolumeControl.t) (voice_command out : string) (v : Z),
     shell w VolumeControl.GET_VOLUME = (0, out) →
     Py.int_of_str (Py.strip out) = Ok v →
     let vol := Z.max 0 (Z.min 100 (v + VolumeControl.change self)) in
     VolumeControl.run self voice_command w =
       (Ok tt,
        set_trace (trace w ++
          [EvShell VolumeControl.GET_VOLUME;
           EvLog INFO "volume: %s" [Py.strip out];
           EvShell ("amixer -q set Master " +:+ Py.str_of_int vol +:+ "%");
           EvSay ("Volume at " +:+ Py.str_of_int vol +:+ " %.")]) w)) ∧
  (∀ (w : world) (voice_command : string),
     shell w VolumeControl.GET_VOLUME = (0, "50") →
     VolumeControl.run {| VolumeControl.change := 10 |} voice_command w =
       (Ok tt,
        set_trace (trace w ++
          [EvShell VolumeControl.GET_VOLUME;
           EvLog INFO "volume: %s" ["50"];
           EvShell "amixer -q set Master 60%";
           EvSay "Volume at 60 %."]) w)) ∧
  (∀ (w : world) (voice_command : string),
     shell w VolumeControl.GET_VOLUME = (0, "95") →
     VolumeControl.run {| VolumeControl.change := 10 |} voice_command w =
       (Ok tt,
        set_trace (trace w ++
          [EvShell VolumeControl.GET_VOLUME;
           EvLog INFO "volume: %s" ["95"];
           EvShell "amixer -q set Master 100%";
           EvSay "Volume at 100 %."]) w)).
Proof.
  split; [|split].
  - intros w self vc out v Hq Hp vol. exact (VolumeControl_run_ok w self vc out v Hq Hp).
  - intros w vc Hq.
    exact (VolumeControl_run_ok w {| VolumeControl.change := 10 |} vc "50" 50 Hq eq_refl).
  - intros w vc Hq.
    exact (VolumeControl_run_ok w {| VolumeControl.change := 10 |} vc "95" 95 Hq eq_refl).
Qed.

Lemma VolumeControl_run_sets_clamped_and_speaks_witness :
  VolumeControl.run {| VolumeControl.change := -10 |} "volume down"
      (Sample.bare (Sample.mixer "5")) =
    (Ok tt,
     set_trace
       [EvShell VolumeControl.GET_VOLUME;
        EvLog INFO "volume: %s" ["5"];
        EvShell "amixer -q set Master 0%";
        EvSay "Volume at 0 %."] (Sample.bare (Sample.mixer "5"))).
Proof.
  exact (proj1 VolumeControl_run_sets_clamped_and_speaks
           (Sample.bare (Sample.mixer "5")) {| VolumeControl.change := -10 |}
           "volume down" ("5" +:+ Sample.newline) 5 eq_refl eq_refl).
Defined.

(** The exit status of the setter is never looked at: on a machine where the
    setter fails, the new volume is announced all the same. *)
Lemma VolumeControl_run_ignores_setter_status :
  VolumeControl.run {| VolumeControl.change := 10 |} "volume up"
      (Sample.bare (Sample.no_setter "50")) =
    (Ok tt,
     set_trace
       [EvShell VolumeControl.GET_VOLUME;
        EvLog INFO "volume: %s" ["50"];
        EvShell "amixer -q set Master 60%";
        EvSay "Volume at 60 %."] (Sample.bare (Sample.no_setter "50"))).
Proof. reflexivity. Qed.

(** A volume that does not parse is absorbed: apology, then the log entry. *)
Lemma VolumeControl_run_parse_failure (w : world) (self : VolumeControl.t)
    (voice_command out : string) (e : exn) :
  shell w VolumeControl.GET_VOLUME = (0, out) →
  Py.int_of_str (Py.strip out) = Raise e →
  VolumeControl.run self voice_command w =
    (Ok tt,
     set_trace (trace w ++
       [EvShell VolumeControl.GET_VOLUME;
        EvLog INFO "volume: %s" [Py.strip out];
        EvSay "Sorry, I couldn't do that";
        EvLog ERROR "Error using amixer to adjust volume." []]) w).
Proof.
  intros Hq Hp.
  assert (e = ValueError) as ->.
  { unfold Py.int_of_str in Hp. repeat case_match; congruence. }
  unfold VolumeControl.run. run_prog.
  rewrite Hq. cbn [Z.eqb]. cbn [set_trace trace]. rewrite Hp.
  cbn [VolumeControl.catches]. same_world.
Qed.

(** C4 (where the code departs from it): when the volume query itself exits
    with a non-zero status, [check_output] raises [CalledProcessError] before
    the [try] is entered; [VolumeControl.run] lets it propagate, and nothing
    is spoken or logged. *)
Theorem VolumeControl_run_query_failure_propagates (w : world)
    (self : VolumeControl.t) (voice_command out : string) (status : Z) :
  shell w VolumeControl.GET_VOLUME = (status, out) →
  status ≠ 0 →
  VolumeControl.run self voice_command w =
    (Raise CalledProcessError,
     set_trace (trace w ++ [EvShell VolumeControl.GET_VOLUME]) w).
Proof.
  intros Hq Hs.
  unfold VolumeControl.run. run_prog.
  rewrite Hq. apply Z.eqb_neq in Hs. rewrite Hs. reflexivity.
Qed.

Lemma VolumeControl_run_query_failure_propagates_witness :
  VolumeControl.run {| VolumeControl.change := 10 |} "volume up"
      (Sample.bare Sample.broken_shell) =
    (Raise CalledProcessError,
     set_trace [EvShell VolumeControl.GET_VOLUME] (Sample.bare Sample.broken_shell)).
Proof.
  apply (VolumeControl_run_query_failure_propagates
           (Sample.bare Sample.broken_shell) {| VolumeControl.change := 10 |}
           "volume up" "" 1 eq_refl).
  discriminate.
Defined.

(** ** PagingException *)

Lemma init_with_exception_unit (w : world) (e : entity.Entity) (r : record)
    (v : value) (templates : list value) :
  heap w !! entity.data e = Some r →
  r !! "paging_exception" = Some v →
  entity.message {| entity.pe_data := v |} = Ok templates →
  PageUnit.init e w =
    (Ok {| PageUnit.unit := e; PageUnit.self_responses := templates |}, w).
Proof.
  intros Hh Hr Hm.
  unfold PageUnit.init, entity.paging_exception, entity.get_data. run_prog.
  rewrite Hh. cbn [default from_option]. unfold id. rewrite Hr, Hm. reflexivity.
Qed.

Lemma init_with_exception_tenant (w : world) (e : entity.Entity) (r : record)
    (v : value) (templates : list value) :
  heap w !! entity.data e = Some r →
  r !! "paging_exception" = Some v →
  entity.message {| entity.pe_data := v |} = Ok templates →
  PageTenant.init e w =
    (Ok {| PageTenant.tenant := e; PageTenant.self_responses := templates |}, w).
Proof.
  intros Hh Hr Hm.
  unfold PageTenant.init, entity.paging_exception, entity.get_data. run_prog.
  rewrite Hh. cbn [default from_option]. unfold id. rewrite Hr, Hm. reflexivity.
Qed.

(** C10: for every entity record whose [paging_exception] sub-record has a
    [message] field, [PagingException.message] returns a list: the field
    itself when it is a list, and otherwise the one-element list holding it
    (a scalar string gives a list of one string, a list of strings is
    returned as it is); [PageUnit] and [PageTenant] take that list as their
    responses. *)
Theorem paging_exception_message_is_a_list (w : world) (e : entity.Entity)
    (r : record) (d : gmap string value) (msg : value) :
  heap w !! entity.data e = Some r →
  r !! "paging_exception" = Some (VDict d) →
  d !! "message" = Some msg →
  let templates := match msg with VList l => l | _ => [msg] end in
  entity.message {| entity.pe_data := VDict d |} = Ok templates ∧
  (∀ s, msg = VStr s → templates = [VStr s]) ∧
  (∀ ss, msg = VList (VStr <$> ss) → templates = VStr <$> ss) ∧
  PageUnit.init e w =
    (Ok {| PageUnit.unit := e; PageUnit.self_responses := templates |}, w) ∧
  PageTenant.init e w =
    (Ok {| PageTenant.tenant := e; PageTenant.self_responses := templates |}, w).
Proof.
  intros Hh Hr Hd templates.
  assert (Hm : entity.message {| entity.pe_data := VDict d |} = Ok templates).
  { unfold entity.message. cbn [entity.pe_data subscript]. rewrite Hd.
    subst templates. by destruct msg. }
  split; [exact Hm|]. split; [|split; [|split]].
  - intros s ->. reflexivity.
  - intros ss ->. reflexivity.
  - by eapply init_with_exception_unit.
  - by eapply init_with_exception_tenant.
Qed.

Lemma paging_exception_message_is_a_list_witness :
  entity.message
    {| entity.pe_data := VDict (<["message" := VStr "unit $unit is away"]> ∅) |}
    = Ok [VStr "unit $unit is away"].
Proof.
  exact (proj1 (paging_exception_message_is_a_list
           (Sample.with_heap [Sample.away_unit]) {| entity.data := 0%nat |}
           Sample.away_unit (<["message" := VStr "unit $unit is away"]> ∅)
           (VStr "unit $unit is away") eq_refl eq_refl eq_refl)).
Defined.

(** ** Entities: loading, dumping and aliasing *)

Lemma load_mapping_eq (h : list record) (m : list (string * record)) :
  entity.load_mapping h m = (h ++ m.*2, Store.fresh_refs (length h) m).
Proof.
  revert h. induction m as [|[id r] m IH]; intros h; simpl.
  - by rewrite app_nil_r.
  - rewrite IH. rewrite <- app_assoc. simpl. f_equal.
    unfold Store.fresh_refs. simpl. f_equal; [f_equal; lia|].
    apply imap_ext. intros i [id' r'] _. simpl. rewrite length_app. simpl. f_equal. lia.
Qed.

Lemma dump_fresh_refs (H : list record) (n : nat) (m : list (string * record)) :
  (∀ i r, m.*2 !! i = Some r → H !! (n + i)%nat = Some r) →
  entity.dump_mapping H (Store.fresh_refs n m) = m.
Proof.
  revert n. induction m as [|[id r] m IH]; intros n Hm; [done|].
  unfold entity.dump_mapping, Store.fresh_refs in *. simpl.
  rewrite (Hm 0%nat r eq_refl). simpl. f_equal.
  erewrite imap_ext; [apply (IH (S n))|].
  - intros i r' Hi. replace (S n + i)%nat with (n + S i)%nat by lia. by apply Hm.
  - intros i [id' r'] _. simpl. f_equal. lia.
Qed.

Lemma synch_data_eq (w : world) (ge : Entities) :
  global_entities w = Some ge →
  let doc := {| doc_units := entity.dump_mapping (heap w) (units ge);
                doc_tenants := entity.dump_mapping (heap w) (tenants ge) |} in
  entity.global_synch_data w =
    (Ok tt,
     {| heap := (heap w ++ (doc_units doc).*2) ++ (doc_tenants doc).*2;
        files := <[data_file ge := doc]> (files w);
        global_entities :=
          Some {| data_file := data_file ge;
                  units := Store.fresh_refs (length (heap w)) (doc_units doc);
                  tenants := Store.fresh_refs (length (heap w ++ (doc_units doc).*2))
                               (doc_tenants doc) |};
        words := words w; shell := shell w; rand := rand w;
        trace := trace w ++ [EvWriteFile (data_file ge) doc; EvReadFile (data_file ge)] |}).
Proof.
  intros Hge doc.
  unfold entity.global_synch_data, entity.synch_data, entity.serialize_data,
    entity.import_data, entity.the_entities.
  run_prog. rewrite Hge.
  cbn [set_files set_trace shell trace heap files global_entities words rand].
  rewrite lookup_insert_eq.
  rewrite !load_mapping_eq.
  unfold set_heap, set_global_entities.
  cbn [set_files set_trace shell trace heap files global_entities words rand doc_units doc_tenants data_file].
  rewrite <- !app_assoc. reflexivity.
Qed.

Lemma set_password_eq (w : world) (t : entity.Tenant) (v : value) :
  entity.set_password t v w =
    entity.global_synch_data
      (set_heap (<[entity.data t := <["password" := v]> (default ∅ (heap w !! entity.data t))]>
                   (heap w)) w).
Proof. reflexivity. Qed.

Lemma mapping_get_dump (h : list record) (m : list (string * loc)) (id : string) (l : loc) :
  entity.mapping_get m id = Ok l →
  entity.mapping_get (entity.dump_mapping h m) id = Ok (default ∅ (h !! l)).
Proof.
  induction m as [|[k x] m IH]; simpl; [discriminate|].
  destruct (String.eqb k id); [congruence|done].
Qed.

Lemma password_of_record (w : world) (t : entity.Tenant) (r : record) (v : value) :
  heap w !! entity.data t = Some r →
  r !! "password" = Some v →
  entity.password t w = (Ok (if truthy v then v else VStr entity.default_password), w).
Proof.
  intros Hh Hr. unfold entity.password, entity.get_data. run_prog.
  rewrite Hh. cbn [default from_option]. unfold id. rewrite Hr.
  by destruct (truthy v).
Qed.

Lemma set_password_written (w : world) (ge : Entities) (t : entity.Tenant) (v : value) :
  global_entities w = Some ge →
  entity.set_password t v w = (Ok tt, Store.written w ge (entity.data t) v).
Proof.
  intros Hge. rewrite set_password_eq.
  exact (synch_data_eq (set_heap (Store.assigned w (entity.data t) v) w) ge Hge).
Qed.

Lemma dump_units_after_reload (h : list record) (us ts : list (string * record))
    (l : loc) (r : record) :
  (l < length h)%nat →
  entity.dump_mapping (<[l := r]> ((h ++ us.*2) ++ ts.*2)) (Store.fresh_refs (length h) us) = us.
Proof.
  intros Hl. apply dump_fresh_refs. intros i r' Hi.
  pose proof (lookup_lt_Some _ _ _ Hi) as Hlt.
  rewrite list_lookup_insert_ne by lia.
  rewrite lookup_app_l by (rewrite length_app; lia).
  rewrite lookup_app_r by lia.
  by replace (length h + i - length h)%nat with i by lia.
Qed.

Lemma dump_tenants_after_reload (h : list record) (us ts : list (string * record))
    (l : loc) (r : record) :
  (l < length h)%nat →
  entity.dump_mapping (<[l := r]> ((h ++ us.*2) ++ ts.*2))
    (Store.fresh_refs (length (h ++ us.*2)) ts) = ts.
Proof.
  intros Hl. apply dump_fresh_refs. intros i r' Hi.
  rewrite list_lookup_insert_ne by (rewrite length_app; lia).
  rewrite lookup_app_r by lia.
  by replace (length (h ++ us.*2) + i - length (h ++ us.*2))%nat with i by lia.
Qed.

Lemma dump_after_reload (h : list record) (ge : Entities) (l : loc) (r : record) :
  (l < length h)%nat →
  Store.stored_doc
    (<[l := r]> ((h ++ (doc_units (Store.stored_doc h ge)).*2)
                 ++ (doc_tenants (Store.stored_doc h ge)).*2))
    (Store.reloaded_entities h ge) = Store.stored_doc h ge.
Proof.
  intros Hl. unfold Store.stored_doc at 1. cbn [Store.reloaded_entities units tenants].
  rewrite dump_units_after_reload, dump_tenants_after_reload by done.
  by destruct (Store.stored_doc h ge).
Qed.

(** The password read through a view is never empty: an absent or falsy
    ['password'] field reads as the sentinel. *)
Lemma Tenant_password_default (w : world) (t : entity.Tenant) (r : record) :
  heap w !! entity.data t = Some r →
  (r !! "password" = None ∨ ∃ v, r !! "password" = Some v ∧ truthy v = false) →
  entity.password t w = (Ok (VStr entity.default_password), w) ∧
  entity.default_password ≠ "".
Proof.
  intros Hh Hr. split; [|discriminate].
  destruct Hr as [Hr|(v & Hr & Hv)].
  - unfold entity.password, entity.get_data. run_prog.
    rewrite Hh. cbn [default from_option]. unfold id. by rewrite Hr.
  - rewrite (password_of_record w t r v Hh Hr). by rewrite Hv.
Qed.

Lemma Tenant_password_never_empty (w : world) (t : entity.Tenant) (v : value) :
  (entity.password t w).1 = Ok v → v ≠ VStr "".
Proof.
  unfold entity.password, entity.get_data. run_prog.
  destruct (default ∅ (heap w !! entity.data t) !! "password") as [x|] eqn:E;
    rewrite ?E; [destruct (truthy x) eqn:T|]; cbn; intros [= <-]; try discriminate.
  intros ->. discriminate.
Qed.

(** The first assignment through a view over the store's own dict reaches
    the file: read back, the document has the new password. *)
Lemma Tenant_password_first_write_persisted (w : world) (ge : Entities)
    (t : entity.Tenant) (id : string) (v : value) :
  global_entities w = Some ge →
  (entity.data t < length (heap w))%nat →
  entity.mapping_get (tenants ge) id = Ok (entity.data t) →
  ∃ w1 doc r,
    entity.set_password t v w = (Ok tt, w1) ∧
    files w1 !! data_file ge = Some doc ∧
    entity.mapping_get (doc_tenants doc) id = Ok r ∧
    r !! "password" = Some v.
Proof.
  intros Hge Hl Hid.
  exists (Store.written w ge (entity.data t) v),
    (Store.stored_doc (Store.assigned w (entity.data t) v) ge),
    (<["password" := v]> (default ∅ (heap w !! entity.data t))).
  split; [by apply set_password_written|].
  split; [apply lookup_insert_eq|].
  split; [|apply lookup_insert_eq].
  cbn [Store.stored_doc doc_tenants].
  rewrite (mapping_get_dump _ _ _ _ Hid). unfold Store.assigned.
  by rewrite list_lookup_insert_eq by done.
Qed.

(** C3 (where the code departs from it): [synch_data] reads the document
    back into new dict objects, so after one assignment a [Tenant] view no
    longer refers to the store's record.  A second assignment [v2] through the
    same view succeeds and changes what the view reads, but the document
    written is the one of the first assignment: read back, the tenant's
    password is still [v1]. *)
Theorem Tenant_password_second_write_not_persisted (w : world) (ge : Entities)
    (t : entity.Tenant) (id : string) (v1 v2 : value) :
  global_entities w = Some ge →
  (entity.data t < length (heap w))%nat →
  entity.mapping_get (tenants ge) id = Ok (entity.data t) →
  ∃ w1 w2 doc r,
    entity.set_password t v1 w = (Ok tt, w1) ∧
    entity.set_password t v2 w1 = (Ok tt, w2) ∧
    files w2 !! data_file ge = Some doc ∧
    entity.mapping_get (doc_tenants doc) id = Ok r ∧
    r !! "password" = Some v1 ∧
    entity.password t w2 =
      (Ok (if truthy v2 then v2 else VStr entity.default_password), w2).
Proof.
  intros Hge Hl Hid.
  set (l := entity.data t) in *.
  set (w1 := Store.written w ge l v1).
  set (ge1 := Store.reloaded_entities (Store.assigned w l v1) ge).
  set (w2 := Store.written w1 ge1 l v2).
  assert (Hlen : length (Store.assigned w l v1) = length (heap w)).
  { unfold Store.assigned. apply length_insert. }
  assert (Hdoc : Store.stored_doc (Store.assigned w1 l v2) ge1 = Store.stored_doc (Store.assigned w l v1) ge).
  { apply (dump_after_reload (Store.assigned w l v1)). lia. }
  exists w1, w2, (Store.stored_doc (Store.assigned w l v1) ge),
    (<["password" := v1]> (default ∅ (heap w !! l))).
  split; [by apply set_password_written|].
  split; [by apply set_password_written|].
  split.
  { subst w2. cbn [Store.written files data_file Store.reloaded_entities ge1].
    rewrite Hdoc. apply lookup_insert_eq. }
  split.
  { cbn [Store.stored_doc doc_tenants].
    rewrite (mapping_get_dump _ _ _ _ Hid). unfold Store.assigned.
    by rewrite list_lookup_insert_eq by done. }
  split; [apply lookup_insert_eq|].
  eapply password_of_record; [|apply lookup_insert_eq].
  subst w2. cbn [Store.written heap].
  rewrite <- app_assoc, lookup_app_l.
  2:{ unfold Store.assigned. rewrite length_insert. subst w1. cbn [Store.written heap].
      rewrite !length_app. lia. }
  unfold Store.assigned at 1. apply list_lookup_insert_eq.
  subst w1. cbn [Store.written heap]. rewrite !length_app. lia.
Qed.

Lemma Tenant_password_second_write_not_persisted_witness :
  ∃ w1 w2 doc r,
    entity.set_password {| entity.data := 1%nat |} (VStr "alpha") (Sample.loaded []) = (Ok tt, w1) ∧
    entity.set_password {| entity.data := 1%nat |} (VStr "bravo") w1 = (Ok tt, w2) ∧
    files w2 !! Sample.path = Some doc ∧
    entity.mapping_get (doc_tenants doc) "Bryan" = Ok r ∧
    r !! "password" = Some (VStr "alpha") ∧
    entity.password {| entity.data := 1%nat |} w2 = (Ok (VStr "bravo"), w2).
Proof.
  apply (Tenant_password_second_write_not_persisted (Sample.loaded [])
           Sample.loaded_entities {| entity.data := 1%nat |} "Bryan"
           (VStr "alpha") (VStr "bravo")).
  - reflexivity.
  - cbn. lia.
  - reflexivity.
Defined.

(** The same on the running program: the store is loaded, a view of Bryan is
    taken, and the password is assigned once or twice. *)
Example Entities_init_loaded :
  entity.Entities_init Sample.path (Sample.installed Sample.directory []) =
    (Ok Sample.loaded_entities, Sample.loaded []).
Proof. reflexivity. Qed.

Example write_once_is_stored :
  (Sample.write_once (VStr "alpha") (Sample.installed Sample.directory [])).1 =
    Ok (VStr "alpha", VStr "alpha").
Proof. vm_compute. reflexivity. Qed.

Example write_twice_is_lost :
  (Sample.write_twice (VStr "alpha") (VStr "bravo")
     (Sample.installed Sample.directory [])).1 =
    Ok (VStr "bravo", VStr "alpha").
Proof. vm_compute. reflexivity. Qed.

(** ** Reading a tenant, drawing at random, rotating the password *)


Section Readers.
Context (w : world) (t : entity.Entity) (r : record).
Hypothesis Hr : heap w !! entity.data t = Some r.

Lemma password_reads : entity.password t w = (Ok (View.password_of r), w).
Proof.
  unfold entity.password, entity.get_data, View.password_of. run_prog.
  rewrite Hr. cbn [default from_option]. unfold id.
  destruct (r !! "password") as [v|]; [by destruct (truthy v)|done].
Qed.

Lemma name_reads : entity.name t w = (View.name_of r, w).
Proof.
  unfold entity.name, entity.field, entity.get_data, View.name_of. run_prog.
  rewrite Hr. cbn [default from_option]. unfold id.
  destruct (r !! "synonyms") as [v|]; [by destruct (subscript0 v)|done].
Qed.

Lemma phone_no_reads : entity.phone_no t w = (Ok (View.phone_of r), w).
Proof.
  unfold entity.phone_no, entity.get_data, View.phone_of. run_prog.
  rewrite Hr. cbn [default from_option]. unfold id.
  by destruct (r !! "phone_no").
Qed.
End Readers.

Lemma choice_eq {A} (seq : list A) (w : world) (x : A) :
  seq !! (draw w mod length seq)%nat = Some x →
  choice seq w = (Ok x, set_rand (tail (rand w)) w).
Proof.
  intros Hx. unfold choice. run_prog. by rewrite Hx.
Qed.

Lemma choice_nonempty {A} (seq : list A) (w : world) :
  seq ≠ [] → ∃ x, seq !! (draw w mod length seq)%nat = Some x.
Proof.
  intros Hne. apply lookup_lt_is_Some_2.
  apply Nat.mod_upper_bound. by destruct seq.
Qed.

Lemma new_word_eq (w : world) (ge : Entities) (t : entity.Tenant) (r : record)
    (line : string) :
  heap w !! entity.data t = Some r →
  global_entities w = Some ge →
  words w !! (draw w mod length (words w))%nat = Some line →
  let v := VStr (Py.rstrip line) in
  let wr := Store.written (set_rand (tail (rand w)) w) ge (entity.data t) v in
  let r' := <["password" := v]> r in
  Password.new_word t w =
    (Ok (View.password_of r'),
     set_trace (trace wr ++ [EvSendText (View.phone_of r') (View.password_of r')]) wr).
Proof.
  intros Hr Hge Hline v wr r'.
  assert (Hr' : heap wr !! entity.data t = Some r').
  { subst wr. cbn [Store.written heap].
    pose proof (lookup_lt_Some _ _ _ Hr) as Hlt.
    unfold Store.assigned. cbn [set_rand heap].
    rewrite <- app_assoc, lookup_app_l by (by rewrite length_insert).
    rewrite list_lookup_insert_eq by done. by rewrite Hr. }
  unfold Password.new_word, Messenger.send_text.
  unfold mbind, M_bind at 1. unfold gets at 1.
  unfold mbind, M_bind at 1. rewrite (choice_eq _ _ _ Hline).
  unfold mbind, M_bind at 1.
  rewrite (set_password_written _ ge) by done. fold v. fold wr.
  unfold mbind, M_bind at 1. rewrite (phone_no_reads wr t r' Hr').
  unfold mbind, M_bind at 1. rewrite (password_reads wr t r' Hr').
  unfold mbind, M_bind at 1. unfold emit, modify.
  apply (password_reads _ t r'). exact Hr'.
Qed.

(** ** Strings *)

Lemma prefix_cons a tok b s :
  String.prefix (String a tok) (String b s) = true ↔ a = b ∧ String.prefix tok s = true.
Proof.
  simpl. destruct (ascii_dec a b); split; intros; destruct_and?; try done; by subst.
Qed.

Lemma prefix_before_foreign_char (tok : string) (c : ascii) (Y rest : string) :
  Py.has_char c tok = false →
  String.prefix tok (Y +:+ String c rest) = true →
  String.prefix tok Y = true.
Proof.
  revert Y. induction tok as [|a tok IH]; intros Y Hc Hp; [by destruct Y|].
  simpl in Hc. apply orb_false_iff in Hc as [Hac Hc].
  destruct Y as [|b Y].
  - cbn [String.app append] in Hp. apply prefix_cons in Hp as [-> _].
    by rewrite Ascii.eqb_refl in Hac.
  - change (String b Y +:+ String c rest) with (String b (Y +:+ String c rest)) in Hp.
    apply prefix_cons in Hp as [-> Hp]. apply prefix_cons. split; [done|].
    by apply IH.
Qed.

Lemma contains_false_prefix needle hay :
  Py.contains needle hay = false → String.prefix needle hay = false.
Proof. destruct hay; simpl; intros H; by apply orb_false_iff in H as [? _]. Qed.

Lemma contains_false_tail needle c hay :
  Py.contains needle (String c hay) = false → Py.contains needle hay = false.
Proof. simpl. intros H. by apply orb_false_iff in H as [_ ?]. Qed.

Lemma replace_go_cons (old new : string) (a : ascii) (s : string) :
  Py.replace_go old new 0 (String a s) =
    if String.prefix old (String a s)
    then new +:+ Py.replace_go old new (String.length old - 1) s
    else String a (Py.replace_go old new 0 s).
Proof. reflexivity. Qed.

(** Text in which [old] does not occur, followed by a character that is not
    in [old], passes through [replace] unchanged. *)
Lemma replace_go_clean (old new : string) (c : ascii) (s rest : string) :
  Py.has_char c old = false →
  Py.contains old s = false →
  Py.replace_go old new 0 (s +:+ String c rest) =
    s +:+ Py.replace_go old new 0 (String c rest).
Proof.
  intros Hc. induction s as [|a s IH]; intros Hs; [done|].
  change (String a s +:+ ?x) with (String a (s +:+ x)).
  rewrite replace_go_cons.
  destruct (String.prefix old (String a (s +:+ String c rest))) eqn:Hp.
  - apply (prefix_before_foreign_char old c (String a s) rest Hc) in Hp.
    apply contains_false_prefix in Hs. congruence.
  - f_equal. apply IH. by eapply contains_false_tail.
Qed.

Lemma replace_token_over_literal (name s : string) :
  Py.replace_go "$tenant" name 0 ("that is the correct password: " +:+ s) =
    "that is the correct password: " +:+ Py.replace_go "$tenant" name 0 s.
Proof. reflexivity. Qed.

Lemma replace_token_after_password (name pw rest : string) :
  Py.contains GainEntry.token pw = false →
  Py.replace GainEntry.token name
    ("that is the correct password: " +:+ pw +:+ ". " +:+ rest) =
  "that is the correct password: " +:+ pw +:+
    Py.replace_go GainEntry.token name 0 (". " +:+ rest).
Proof.
  intros Hpw. unfold Py.replace, GainEntry.token in *.
  rewrite replace_token_over_literal. f_equal.
  by apply (replace_go_clean "$tenant" name "." pw (" " +:+ rest)).
Qed.

Lemma string_app_assoc (a b c : string) : (a +:+ b) +:+ c = a +:+ (b +:+ c).
Proof.
  induction a as [|x a IH]; [done|].
  change (String x ((a +:+ b) +:+ c) = String x (a +:+ (b +:+ c))).
  by rewrite IH.
Qed.

Lemma percent_correct_password pw :
  Py.percent "that is the correct password: %s. " [pw] =
    Ok ("that is the correct password: " +:+ pw +:+ ". ").
Proof. reflexivity. Qed.

Section GainEntryRun.
Context (w : world) (self : GainEntry.t) (r : record) (pw name : string)
        (voice_command : string).
Hypothesis Hr : heap w !! entity.data (GainEntry.tenant self) = Some r.
Hypothesis Hpw : View.password_of r = VStr pw.
Hypothesis Hname : View.name_of r = Ok (VStr name).

Lemma GainEntry_run_no_match (phrase : string) :
  Py.contains pw (Py.lower voice_command) = false →
  GainEntry.fail_responses !! (draw w mod length GainEntry.fail_responses)%nat = Some phrase →
  GainEntry.run self voice_command w =
    (Ok 1,
     set_trace (trace w ++ [EvSay (Spec.failure_phrase name phrase)])
       (set_rand (tail (rand w)) w)).
Proof.
  intros Hm Hph. unfold GainEntry.run.
  unfold mbind, M_bind at 1. rewrite (password_reads w _ r Hr), Hpw.
  unfold mbind, M_bind at 1. unfold lift at 1. cbn [as_str].
  rewrite Hm.
  unfold mbind, M_bind at 1. unfold mbind, M_bind at 1.
  rewrite (choice_eq _ _ _ Hph). unfold mret, M_ret at 1.
  unfold mbind, M_bind at 1.
  rewrite (name_reads (set_rand (tail (rand w)) w) _ r Hr), Hname.
  unfold Spec.failure_phrase, mbind, M_bind, mret, M_ret, lift, say, emit, modify.
  cbn [as_str]. reflexivity.
Qed.

Lemma GainEntry_run_match (phrase : string) :
  Py.contains pw (Py.lower voice_command) = true →
  GainEntry.pass_responses !! (draw w mod length GainEntry.pass_responses)%nat = Some phrase →
  let w1 := set_trace (trace w ++ [EvSay (Spec.success_phrase name pw phrase)])
              (set_rand (tail (rand w)) w) in
  GainEntry.run self voice_command w =
    (match (Password.new_word (GainEntry.tenant self) w1).1 with
     | Ok _ => Ok 1
     | Raise e => Raise e
     end,
     (Password.new_word (GainEntry.tenant self) w1).2).
Proof.
  intros Hm Hph w1. unfold GainEntry.run.
  unfold mbind, M_bind at 1. rewrite (password_reads w _ r Hr), Hpw.
  unfold mbind, M_bind at 1. unfold lift at 1. cbn [as_str].
  rewrite Hm.
  unfold mbind, M_bind at 1. unfold mbind, M_bind at 1.
  rewrite (password_reads w _ r Hr), Hpw.
  unfold mbind, M_bind at 1. unfold lift at 1. cbn [as_str].
  unfold mbind, M_bind at 1. unfold lift at 1. rewrite percent_correct_password.
  unfold mbind, M_bind at 1.
  rewrite (choice_eq _ _ _ Hph). unfold mret, M_ret at 1.
  unfold mbind, M_bind at 1.
  rewrite (name_reads (set_rand (tail (rand w)) w) _ r Hr), Hname.
  unfold mbind, M_bind at 1. unfold lift at 1. cbn [as_str].
  unfold mbind, M_bind at 1. unfold say, emit, modify at 1.
  cbn [trace set_rand].
  unfold mbind, M_bind at 1. unfold mbind, M_bind at 1.
  rewrite !string_app_assoc.
  subst w1. unfold Spec.success_phrase, mret, M_ret.
  destruct (Password.new_word _ _) as [[v|e] w2]; timeout 20 reflexivity.
Qed.
End GainEntryRun.

Lemma new_word_rotates (w : world) (ge : Entities) (t : entity.Tenant) (r : record) :
  heap w !! entity.data t = Some r →
  global_entities w = Some ge →
  words w ≠ [] →
  ∃ line doc w',
    line ∈ words w ∧
    Password.new_word t w =
      (Ok (View.password_of (<["password" := VStr (Py.rstrip line)]> r)), w') ∧
    trace w' = trace w ++
      [EvWriteFile (data_file ge) doc; EvReadFile (data_file ge);
       EvSendText (View.phone_of (<["password" := VStr (Py.rstrip line)]> r))
                  (View.password_of (<["password" := VStr (Py.rstrip line)]> r))] ∧
    heap w' !! entity.data t = Some (<["password" := VStr (Py.rstrip line)]> r) ∧
    files w' !! data_file ge = Some doc.
Proof.
  intros Hr Hge Hw.
  destruct (choice_nonempty (words w) w Hw) as [line Hline].
  pose proof (new_word_eq w ge t r line Hr Hge Hline) as Hnw.
  cbv zeta in Hnw.
  eexists line, _, _. split; [by eapply list_elem_of_lookup_2|].
  split; [exact Hnw|].
  cbn [trace set_trace Store.written heap files].
  split; [by rewrite <- app_assoc|].
  split; [|apply lookup_insert_eq].
  pose proof (lookup_lt_Some _ _ _ Hr) as Hlt.
  unfold Store.assigned. cbn [set_rand heap].
  rewrite <- app_assoc, lookup_app_l by (by rewrite length_insert).
  rewrite list_lookup_insert_eq by done. by rewrite Hr.
Qed.


(** ** GainEntry *)

(** When the stored password occurs in the lowercased utterance: the success
    phrase is spoken, and then the password is rotated. *)
Lemma GainEntry_run_passes (w : world) (ge : Entities)
    (self : GainEntry.t) (r : record) (pw name voice_command : string) :
  heap w !! entity.data (GainEntry.tenant self) = Some r →
  global_entities w = Some ge →
  words w ≠ [] →
  View.password_of r = VStr pw →
  View.name_of r = Ok (VStr name) →
  Py.contains pw (Py.lower voice_command) = true →
  ∃ phrase line doc to new_pw w',
    phrase ∈ GainEntry.pass_responses ∧ line ∈ words w ∧
    GainEntry.run self voice_command w = (Ok 1, w') ∧
    trace w' = trace w ++
      [EvSay (Spec.success_phrase name pw phrase);
       EvWriteFile (data_file ge) doc; EvReadFile (data_file ge);
       EvSendText to new_pw] ∧
    heap w' !! entity.data (GainEntry.tenant self)
      = Some (<["password" := VStr (Py.rstrip line)]> r) ∧
    files w' !! data_file ge = Some doc.
Proof.
  intros Hr Hge Hw Hpw Hname Hm.
  destruct (choice_nonempty GainEntry.pass_responses w ltac:(done)) as [phrase Hph].
  pose proof (GainEntry_run_match w self r pw name voice_command Hr Hpw Hname
                phrase Hm Hph) as Hrun.
  cbv zeta in Hrun.
  set (w1 := set_trace _ _) in Hrun.
  destruct (new_word_rotates w1 ge (GainEntry.tenant self) r Hr Hge Hw)
    as (line & doc & w' & Hline & Hnw & Htr & Hheap & Hfile).
  rewrite Hnw in Hrun. cbn [fst snd] in Hrun.
  eexists phrase, line, doc, _, _, w'.
  split; [by eapply list_elem_of_lookup_2|].
  split; [exact Hline|]. split; [exact Hrun|].
  split; [|done].
  rewrite Htr. subst w1. cbn [trace set_trace]. by rewrite <- app_assoc.
Qed.

(** Otherwise: a failure phrase is spoken and nothing else happens. *)
Lemma GainEntry_run_fails (w : world)
    (self : GainEntry.t) (r : record) (pw name voice_command : string) :
  heap w !! entity.data (GainEntry.tenant self) = Some r →
  View.password_of r = VStr pw →
  View.name_of r = Ok (VStr name) →
  Py.contains pw (Py.lower voice_command) = false →
  ∃ phrase w',
    phrase ∈ GainEntry.fail_responses ∧
    GainEntry.run self voice_command w = (Ok 1, w') ∧
    trace w' = trace w ++ [EvSay (Spec.failure_phrase name phrase)] ∧
    heap w' = heap w ∧ files w' = files w ∧
    global_entities w' = global_entities w.
Proof.
  intros Hr Hpw Hname Hm.
  destruct (choice_nonempty GainEntry.fail_responses w ltac:(done)) as [phrase Hph].
  eexists phrase, _.
  split; [by eapply list_elem_of_lookup_2|].
  split; [by eapply GainEntry_run_no_match|].
  done.
Qed.

(** C1 (as amended): for a tenant whose current password has no upper-case
    letter, and every utterance: if the password occurs in the utterance,
    ignoring case, [GainEntry.run] speaks a success phrase and then rotates
    the password (a new word is assigned, the document written and read back,
    the word texted), all after the phrase has been spoken; if it does not
    occur, a failure phrase is spoken and the store, the file and the
    password are left as they were. *)
Theorem GainEntry_run_lowercase_password (w : world) (ge : Entities)
    (self : GainEntry.t) (r : record) (pw name voice_command : string) :
  heap w !! entity.data (GainEntry.tenant self) = Some r →
  global_entities w = Some ge →
  words w ≠ [] →
  View.password_of r = VStr pw →
  View.name_of r = Ok (VStr name) →
  Py.lower pw = pw →
  (Spec.contains_ci pw voice_command = true →
   ∃ phrase line doc to new_pw w',
     phrase ∈ GainEntry.pass_responses ∧ line ∈ words w ∧
     GainEntry.run self voice_command w = (Ok 1, w') ∧
     trace w' = trace w ++
       [EvSay (Spec.success_phrase name pw phrase);
        EvWriteFile (data_file ge) doc; EvReadFile (data_file ge);
        EvSendText to new_pw] ∧
     heap w' !! entity.data (GainEntry.tenant self)
       = Some (<["password" := VStr (Py.rstrip line)]> r) ∧
     files w' !! data_file ge = Some doc) ∧
  (Spec.contains_ci pw voice_command = false →
   ∃ phrase w',
     phrase ∈ GainEntry.fail_responses ∧
     GainEntry.run self voice_command w = (Ok 1, w') ∧
     trace w' = trace w ++ [EvSay (Spec.failure_phrase name phrase)] ∧
     heap w' = heap w ∧ files w' = files w ∧
     global_entities w' = global_entities w).
Proof.
  intros Hr Hge Hw Hpw Hname Hlow. unfold Spec.contains_ci. rewrite Hlow.
  split; intros Hm.
  - by eapply GainEntry_run_passes.
  - by eapply GainEntry_run_fails.
Qed.

Lemma GainEntry_run_lowercase_password_witness :
  (Spec.contains_ci "alpha" "Let me in ALPHA please" = true →
   ∃ phrase line doc to new_pw w',
     phrase ∈ GainEntry.pass_responses ∧ line ∈ words (Sample.door "alpha" [1; 2]%nat) ∧
     GainEntry.run Sample.gain_entry "Let me in ALPHA please"
       (Sample.door "alpha" [1; 2]%nat) = (Ok 1, w') ∧
     trace w' = trace (Sample.door "alpha" [1; 2]%nat) ++
       [EvSay (Spec.success_phrase "Bryan" "alpha" phrase);
        EvWriteFile Sample.path doc; EvReadFile Sample.path;
        EvSendText to new_pw] ∧
     heap w' !! 1%nat
       = Some (<["password" := VStr (Py.rstrip line)]> (Sample.bryan_with "alpha")) ∧
     files w' !! Sample.path = Some doc) ∧
  (Spec.contains_ci "alpha" "Let me in ALPHA please" = false →
   ∃ phrase w',
     phrase ∈ GainEntry.fail_responses ∧
     GainEntry.run Sample.gain_entry "Let me in ALPHA please"
       (Sample.door "alpha" [1; 2]%nat) = (Ok 1, w') ∧
     trace w' = trace (Sample.door "alpha" [1; 2]%nat) ++
       [EvSay (Spec.failure_phrase "Bryan" phrase)] ∧
     heap w' = heap (Sample.door "alpha" [1; 2]%nat) ∧
     files w' = files (Sample.door "alpha" [1; 2]%nat) ∧
     global_entities w' = global_entities (Sample.door "alpha" [1; 2]%nat)).
Proof.
  apply (GainEntry_run_lowercase_password (Sample.door "alpha" [1; 2]%nat)
           Sample.loaded_entities Sample.gain_entry (Sample.bryan_with "alpha")
           "alpha" "Bryan" "Let me in ALPHA please").
  - reflexivity.
  - reflexivity.
  - discriminate.
  - reflexivity.
  - reflexivity.
  - reflexivity.
Defined.

(** C1 as stated fails: the password on file is "Secret" and the utterance
    contains it when case is ignored, yet a failure phrase is spoken and
    the password is not rotated. *)
Lemma GainEntry_run_uppercase_password_is_refused :
  Spec.contains_ci "Secret" "let me in secret" = true ∧
  (GainEntry.run Sample.gain_entry "let me in secret" (Sample.door "Secret" [0]%nat)).1
    = Ok 1 ∧
  trace (GainEntry.run Sample.gain_entry "let me in secret"
           (Sample.door "Secret" [0]%nat)).2
    = [EvSay "i didn't recognize the password. sorry, i could not let you in"] ∧
  heap (GainEntry.run Sample.gain_entry "let me in secret"
          (Sample.door "Secret" [0]%nat)).2 !! 1%nat
    = Some (Sample.bryan_with "Secret").
Proof. vm_compute. repeat split; reflexivity. Qed.

(** C9 (as amended): when the stored password occurs in the lowercased
    utterance and does not contain the placeholder [$tenant], the response
    spoken is "that is the correct password: ", the password itself, ". " and
    a greeting; it is spoken before the password is rotated. *)
Theorem GainEntry_run_speaks_password_before_rotation (w : world) (ge : Entities)
    (self : GainEntry.t) (r : record) (pw name voice_command : string) :
  heap w !! entity.data (GainEntry.tenant self) = Some r →
  global_entities w = Some ge →
  words w ≠ [] →
  View.password_of r = VStr pw →
  View.name_of r = Ok (VStr name) →
  Py.contains pw (Py.lower voice_command) = true →
  Py.contains GainEntry.token pw = false →
  ∃ phrase doc to new_pw w',
    phrase ∈ GainEntry.pass_responses ∧
    GainEntry.run self voice_command w = (Ok 1, w') ∧
    trace w' = trace w ++
      [EvSay ("that is the correct password: " +:+ pw +:+ ". " +:+
              Py.replace GainEntry.token name phrase);
       EvWriteFile (data_file ge) doc; EvReadFile (data_file ge);
       EvSendText to new_pw].
Proof.
  intros Hr Hge Hw Hpw Hname Hm Htok.
  destruct (GainEntry_run_passes w ge self r pw name voice_command
              Hr Hge Hw Hpw Hname Hm)
    as (phrase & line & doc & to & new_pw & w' & Hph & _ & Hrun & Htr & _).
  exists phrase, doc, to, new_pw, w'.
  split; [done|]. split; [done|].
  rewrite Htr. do 3 f_equal. unfold Spec.success_phrase.
  by rewrite replace_token_after_password.
Qed.

Lemma GainEntry_run_speaks_password_before_rotation_witness :
  ∃ phrase doc to new_pw w',
    phrase ∈ GainEntry.pass_responses ∧
    GainEntry.run Sample.gain_entry "Let me in ALPHA please"
      (Sample.door "alpha" [1; 2]%nat) = (Ok 1, w') ∧
    trace w' = trace (Sample.door "alpha" [1; 2]%nat) ++
      [EvSay ("that is the correct password: " +:+ "alpha" +:+ ". " +:+
              Py.replace GainEntry.token "Bryan" phrase);
       EvWriteFile Sample.path doc; EvReadFile Sample.path;
       EvSendText to new_pw].
Proof.
  apply (GainEntry_run_speaks_password_before_rotation
           (Sample.door "alpha" [1; 2]%nat)
           Sample.loaded_entities Sample.gain_entry (Sample.bryan_with "alpha")
           "alpha" "Bryan" "Let me in ALPHA please").
  - reflexivity.
  - reflexivity.
  - discriminate.
  - reflexivity.
  - reflexivity.
  - reflexivity.
  - reflexivity.
Defined.

(** C9 as stated fails: with the password "$tenant" on file the check
    passes, but what is spoken has the tenant's name where the password
    should be. *)
Lemma GainEntry_run_placeholder_password_not_spoken :
  Py.contains "$tenant" (Py.lower "let me in $tenant") = true ∧
  (∃ later,
     trace (GainEntry.run Sample.gain_entry "let me in $tenant"
              (Sample.door "$tenant" [0; 0]%nat)).2
     = EvSay "that is the correct password: Bryan. hello, Bryan, have a wonderful day"
       :: later) ∧
  String.prefix "that is the correct password: $tenant"
    "that is the correct password: Bryan. hello, Bryan, have a wonderful day" = false.
Proof.
  split; [reflexivity|]. split; [|reflexivity].
  eexists. vm_compute. reflexivity.
Qed.

(** ** PageUnit.say_unit *)

Lemma round_half_even_bounds (x b : Z) :
  0 < b →
  x / b <= Py.round_half_even x b ∧ 2 * b * Py.round_half_even x b <= 2 * x + b.
Proof.
  intros Hb. unfold Py.round_half_even.
  pose proof (Z.div_mod x b ltac:(lia)) as Hx.
  pose proof (Z.mod_pos_bound x b Hb) as Hr.
  destruct (Z.ltb_spec (2 * (x mod b)) b);
    [|destruct (Z.ltb_spec b (2 * (x mod b))); [|destruct (Z.even (x / b))]];
    split; nia.
Qed.

Lemma round_then_truncate (a k : Z) :
  0 <= a → 6 <= k →
  Py.round_half_even (a * 2 ^ k) 100 / 2 ^ k = a / 100.
Proof.
  intros Ha Hk.
  assert (HP : 64 <= 2 ^ k).
  { change 64 with (2 ^ 6). apply Z.pow_le_mono_r; lia. }
  destruct (round_half_even_bounds (a * 2 ^ k) 100 ltac:(lia)) as [Hlo Hhi].
  set (m := Py.round_half_even (a * 2 ^ k) 100) in *.
  set (P := 2 ^ k) in *.
  pose proof (Z.div_mod a 100 ltac:(lia)) as Hd.
  pose proof (Z.mod_pos_bound a 100 ltac:(lia)) as Hs.
  assert (HKP : a / 100 * P <= a * P / 100).
  { apply Z.div_le_lower_bound; [lia|]. nia. }
  symmetry. apply (Z.div_unique m P (a / 100) (m - a / 100 * P)); nia.
Qed.

(** Below [2^52] the float quotient by 100, truncated, is the integer
    quotient. *)
Lemma int_of_true_div_100 (a : Z) :
  0 <= a < 2 ^ 52 → Py.int_of_true_div a 100 = Ok (a / 100).
Proof.
  intros [Ha Hb]. unfold Py.int_of_true_div.
  destruct (Z.eqb_spec a 0) as [->|Hne]; [done|].
  assert (Hlog : 0 <= Z.log2 a < 52).
  { split; [apply Z.log2_nonneg|]. apply Z.log2_lt_pow2; lia. }
  change (Z.log2 100) with 6.
  set (e0 := Z.log2 a - 6).
  set (e1 := if (if 0 <=? e0 then _ else _) : bool then e0 else e0 - 1).
  assert (He1 : e0 - 1 <= e1 <= e0) by (subst e1; case_match; lia).
  assert (He : Z.max (e1 - 52) (-1074) = e1 - 52) by lia.
  rewrite He.
  destruct (Z.leb_spec 0 (e1 - 52)) as [|_]; [lia|].
  destruct (Z.ltb_spec 971 (e1 - 52)) as [|_]; [lia|].
  destruct (Z.eqb_spec (e1 - 52) 971) as [|_]; [lia|].
  cbn [orb andb]. f_equal. apply round_then_truncate; lia.
Qed.

Lemma digit_range c :
  Py.is_digit c = true ↔ (48 ≤ nat_of_ascii c ≤ 57)%nat.
Proof. unfold Py.is_digit. rewrite andb_true_iff, !Nat.leb_le. done. Qed.

Lemma digit_not_alpha c : Py.is_digit c = true → Py.is_alpha c = false.
Proof.
  rewrite digit_range. intros H. unfold Py.is_alpha, Py.is_upper, Py.is_lower.
  rewrite orb_false_iff, !andb_false_iff, !Nat.leb_gt. lia.
Qed.

Lemma alpha_not_digit c : Py.is_alpha c = true → Py.is_digit c = false.
Proof.
  intros H. destruct (Py.is_digit c) eqn:E; [|done].
  apply digit_not_alpha in E. congruence.
Qed.

Lemma digit_not_space c : Py.is_digit c = true → Py.is_space c = false.
Proof.
  rewrite digit_range. intros H. unfold Py.is_space.
  rewrite orb_false_iff, andb_false_iff, Nat.eqb_neq, !Nat.leb_gt. lia.
Qed.

Lemma digit_value_range c : Py.is_digit c = true → 0 <= Py.digit_value c <= 9.
Proof. rewrite digit_range. unfold Py.digit_value. lia. Qed.

Lemma rstrip_digits ds : Spec.all_chars Py.is_digit ds = true → Py.rstrip ds = ds.
Proof.
  induction ds as [|c ds IH]; [done|]. simpl. intros H.
  apply andb_true_iff in H as [Hc Hds]. rewrite (IH Hds).
  destruct ds; [by rewrite (digit_not_space c Hc)|done].
Qed.

Lemma strip_digits ds : Spec.all_chars Py.is_digit ds = true → Py.strip ds = ds.
Proof.
  intros H. unfold Py.strip.
  assert (Py.lstrip ds = ds) as ->; [|by apply rstrip_digits].
  destruct ds as [|c ds]; [done|]. simpl in *.
  apply andb_true_iff in H as [Hc _]. by rewrite (digit_not_space c Hc).
Qed.

Lemma int_digits_digits acc b ds :
  Spec.all_chars Py.is_digit ds = true →
  ds ≠ "" ∨ b = true →
  Py.int_digits acc b ds = Some (Spec.decimal_from acc ds).
Proof.
  revert acc b. induction ds as [|c ds IH]; intros acc b H Hne.
  - destruct Hne as [?| ->]; done.
  - simpl in *. apply andb_true_iff in H as [Hc Hds]. rewrite Hc.
    apply IH; [done|by right].
Qed.

Lemma int_of_str_digits ds :
  Spec.all_chars Py.is_digit ds = true → ds ≠ "" →
  Py.int_of_str ds = Ok (Spec.decimal ds).
Proof.
  intros H Hne. unfold Py.int_of_str. rewrite (strip_digits ds H).
  assert (Hd : Py.int_digits 0 false ds = Some (Spec.decimal ds))
    by (apply int_digits_digits; auto).
  destruct ds as [|c ds]; [done|].
  simpl in H. apply andb_true_iff in H as [Hc _].
  assert (c ≠ "+"%char ∧ c ≠ "-"%char) as [H1 H2].
  { split; intros ->; discriminate. }
  destruct c as [[] [] [] [] [] [] [] []]; try (by rewrite Hd); congruence.
Qed.

Lemma decimal_from_nonneg acc ds :
  Spec.all_chars Py.is_digit ds = true → 0 <= acc → 0 <= Spec.decimal_from acc ds.
Proof.
  revert acc. induction ds as [|c ds IH]; intros acc H Hacc; [done|].
  simpl in *. apply andb_true_iff in H as [Hc Hds].
  apply IH; [done|]. pose proof (digit_value_range c Hc). lia.
Qed.

Lemma findall_go_no_digits cur s :
  Spec.all_chars Spec.not_digit s = true →
  Py.findall_digits_go cur s = match cur with Some run => [run] | None => [] end.
Proof.
  revert cur. induction s as [|c s IH]; intros cur H; [done|]. simpl in *.
  apply andb_true_iff in H as [Hc Hs]. unfold Spec.not_digit in Hc.
  apply negb_true_iff in Hc. rewrite Hc.
  destruct cur; by rewrite (IH _ Hs).
Qed.

Lemma findall_go_digits run ds rest :
  Spec.all_chars Py.is_digit ds = true →
  Py.findall_digits_go (Some run) (ds +:+ rest) =
    Py.findall_digits_go (Some (run +:+ ds)) rest.
Proof.
  revert run. induction ds as [|c ds IH]; intros run H.
  - assert (run +:+ "" = run) as ->; [|done].
    induction run as [|x run IHr]; [done|].
    change (String x (run +:+ "") = String x run). by rewrite IHr.
  - simpl in H. apply andb_true_iff in H as [Hc Hds].
    change (String c ds +:+ rest) with (String c (ds +:+ rest)).
    cbn [Py.findall_digits_go]. rewrite Hc. rewrite (IH _ Hds).
    by rewrite string_app_assoc.
Qed.

Lemma letters_no_digits ls :
  Spec.all_chars Py.is_alpha ls = true → Spec.all_chars Spec.not_digit ls = true.
Proof.
  induction ls as [|c ls IH]; [done|]. simpl. intros H.
  apply andb_true_iff in H as [Hc Hls]. unfold Spec.not_digit at 1.
  by rewrite (alpha_not_digit c Hc), (IH Hls).
Qed.

Lemma findall_digits_leading c ds ls :
  Spec.all_chars Py.is_digit (String c ds) = true →
  Spec.all_chars Py.is_alpha ls = true →
  Py.findall_digits (String c ds +:+ ls) = [String c ds].
Proof.
  intros H Hls. simpl in H. apply andb_true_iff in H as [Hc Hds].
  unfold Py.findall_digits.
  change (String c ds +:+ ls) with (String c (ds +:+ ls)).
  cbn [Py.findall_digits_go]. rewrite Hc.
  rewrite (findall_go_digits _ _ _ Hds).
  by rewrite (findall_go_no_digits _ _ (letters_no_digits ls Hls)).
Qed.

Lemma span_all p s : Spec.all_chars p s = true → Py.span p s = (s, "").
Proof.
  induction s as [|c s IH]; [done|]. simpl. intros H.
  apply andb_true_iff in H as [Hc Hs]. by rewrite Hc, (IH Hs).
Qed.

Lemma span_digits_then_letters ds ls :
  Spec.all_chars Py.is_digit ds = true →
  Spec.all_chars Py.is_alpha ls = true →
  Py.span Py.is_digit (ds +:+ ls) = (ds, ls).
Proof.
  intros Hds Hls. induction ds as [|c ds IH].
  - destruct ls as [|c ls]; [done|]. simpl in *.
    apply andb_true_iff in Hls as [Hc _]. by rewrite (alpha_not_digit c Hc).
  - simpl in Hds. apply andb_true_iff in Hds as [Hc Hds].
    change (String c ds +:+ ls) with (String c (ds +:+ ls)).
    cbn [Py.span]. by rewrite Hc, (IH Hds).
Qed.

Lemma match_digits_letters_suffix c ds ls :
  Spec.all_chars Py.is_digit (String c ds) = true →
  Spec.all_chars Py.is_alpha ls = true →
  match Py.match_digits_letters (String c ds +:+ ls) with
  | Some (_, suf) => suf
  | None => ""
  end = ls.
Proof.
  intros Hds Hls. unfold Py.match_digits_letters.
  rewrite (span_digits_then_letters _ _ Hds Hls), (span_all _ _ Hls).
  by destruct ls.
Qed.

Lemma percent_unit a b c :
  Py.percent "%s %s %s" [a; b; c] = Ok (a +:+ " " +:+ b +:+ " " +:+ c).
Proof.
  cbn. f_equal.
  assert (E : ∀ x : string, x +:+ "" = x).
  { intros x. induction x as [|y x IH]; [done|].
    change (String y (x +:+ "") = String y x). by rewrite IH. }
  by rewrite E.
Qed.

Lemma say_unit_digits_letters c ds ls :
  Spec.all_chars Py.is_digit (String c ds) = true →
  Spec.all_chars Py.is_alpha ls = true →
  Spec.decimal (String c ds) < 2 ^ 52 →
  PageUnit.say_unit (String c ds +:+ ls) =
    Py.str_of_int (Spec.decimal (String c ds) / 100) +:+ " " +:+
    Py.str_of_int (Spec.decimal (String c ds) mod 100) +:+ " " +:+ ls.
Proof.
  intros Hds Hls Hlt.
  assert (Hnn : 0 <= Spec.decimal (String c ds)) by (by apply decimal_from_nonneg).
  unfold PageUnit.say_unit, PageUnit.say_unit_try.
  rewrite (findall_digits_leading c ds ls Hds Hls).
  unfold mbind, result_bind, rbind.
  change (Py.index [String c ds] 0) with (Ok (String c ds)). cbv beta iota.
  rewrite (int_of_str_digits (String c ds) Hds) by done.
  rewrite (match_digits_letters_suffix c ds ls Hds Hls).
  rewrite (int_of_true_div_100 _ (conj Hnn Hlt)).
  rewrite percent_unit. rewrite Z.mod_eq by lia.
  by replace (Spec.decimal (String c ds) - Spec.decimal (String c ds) / 100 * 100)
    with (Spec.decimal (String c ds) - 100 * (Spec.decimal (String c ds) / 100)) by lia.
Qed.

(** C8: for an address made of a digit run followed by letters (possibly
    none), with a number below [2^52], [say_unit] returns the hundreds, the
    remainder and the suffix separated by single spaces; "453A" gives
    "4 53 A"; an address without digits is returned unchanged; and whenever
    the body of the [try] raises, the address is returned unchanged. *)
Theorem say_unit_pronounces_unit :
  (∀ ds ls : string,
     ds ≠ "" →
     Spec.all_chars Py.is_digit ds = true →
     Spec.all_chars Py.is_alpha ls = true →
     Spec.decimal ds < 2 ^ 52 →
     PageUnit.say_unit (ds +:+ ls) =
       Py.str_of_int (Spec.decimal ds / 100) +:+ " " +:+
       Py.str_of_int (Spec.decimal ds mod 100) +:+ " " +:+ ls) ∧
  PageUnit.say_unit "453A" = "4 53 A" ∧
  (∀ unit : string,
     Spec.all_chars Spec.not_digit unit = true → PageUnit.say_unit unit = unit) ∧
  (∀ (unit : string) (e : exn),
     PageUnit.say_unit_try unit = Raise e → PageUnit.say_unit unit = unit).
Proof.
  split; [|split; [|split]].
  - intros [|c ds] ls Hne Hds Hls Hlt; [done|].
    by apply say_unit_digits_letters.
  - reflexivity.
  - intros unit Hu. unfold PageUnit.say_unit, PageUnit.say_unit_try, Py.findall_digits.
    by rewrite (findall_go_no_digits None unit Hu).
  - intros unit e He. unfold PageUnit.say_unit. by rewrite He.
Qed.

Lemma say_unit_pronounces_unit_witness :
  PageUnit.say_unit "1207b" = "12 7 b".
Proof.
  exact (proj1 say_unit_pronounces_unit "1207" "b"
           ltac:(discriminate) eq_refl eq_refl eq_refl).
Defined.

(** C8 as stated, for every digit run, fails: the hundreds are computed as
    [int(val / 100)], a binary64 quotient, and for "100000000000000096A" that
    quotient is rounded up, so the result is not the hundreds, the remainder
    and the suffix. *)
Lemma say_unit_large_number_not_split :
  Spec.all_chars Py.is_digit "100000000000000096" = true ∧
  Spec.all_chars Py.is_alpha "A" = true ∧
  PageUnit.say_unit "100000000000000096A" = "1000000000000001 -4 A" ∧
  PageUnit.say_unit "100000000000000096A" ≠
    Py.str_of_int (Spec.decimal "100000000000000096" / 100) +:+ " " +:+
    Py.str_of_int (Spec.decimal "100000000000000096" mod 100) +:+ " " +:+ "A".
Proof.
  split; [reflexivity|]. split; [reflexivity|].
  split; [vm_compute; reflexivity|].
  vm_compute. discriminate.
Qed.

(** Outside that shape.  Without letters the suffix is empty and the last
    space stays; digits that are not leading are still found, but no suffix
    is; and from [2^52] on the quotient by 100 goes through binary64 and may
    be rounded. *)
Example say_unit_no_suffix : PageUnit.say_unit "453" = "4 53 ".
Proof. reflexivity. Qed.

Example say_unit_digits_not_leading : PageUnit.say_unit "A453" = "4 53 ".
Proof. reflexivity. Qed.

Example say_unit_no_digits : PageUnit.say_unit "lobby" = "lobby".
Proof. reflexivity. Qed.

Example say_unit_beyond_float_precision :
  PageUnit.say_unit "100000000000000096" = "1000000000000001 -4 ".
Proof. vm_compute. reflexivity. Qed.

(** ** The whole assistant *)

Example make_actor_registers :
  (Sample.registered_phrases (Sample.installed Sample.directory [])).1 =
  Ok [["453a"]; ["bryan"; "brian"];
      ["let me in"; "open up"; "open the door"; "knock knock"];
      ["password"; "forgot"; "help"]].
Proof. vm_compute. reflexivity. Qed.

(** Two requests for a new password: both words are texted, and the
    document on file keeps the first. *)
Example forgot_twice_second_password_lost :
  (Sample.forgot_twice (Sample.installed Sample.directory [0; 0; 1; 0]%nat)).1
    = Ok (VStr "alpha") ∧
  Sample.heard_and_texted
    (trace (Sample.forgot_twice (Sample.installed Sample.directory [0; 0; 1; 0]%nat)).2)
    = [EvSendText (VStr "+15550100") (VStr "alpha");
       EvSay "ok, Bryan, i've sent you a new password";
       EvSendText (VStr "+15550100") (VStr "bravo");
       EvSay "ok, Bryan, i've sent you a new password"].
Proof. vm_compute. split; reflexivity. Qed.

(** * Further properties of the code *)

(** ** The entity store *)


(** What is assigned through a view is what the view reads afterwards, on
    every assignment. *)
Theorem Tenant_password_assign_then_read (w : world) (ge : Entities)
    (t : entity.Tenant) (v : value) :
  global_entities w = Some ge →
  (entity.data t < length (heap w))%nat →
  ∃ w',
    entity.set_password t v w = (Ok tt, w') ∧
    entity.password t w' =
      (Ok (if truthy v then v else VStr entity.default_password), w').
Proof.
  intros Hge Hl. eexists. split; [by apply set_password_written|].
  eapply password_of_record; [|apply lookup_insert_eq].
  cbn [Store.written heap]. unfold Store.assigned.
  rewrite <- app_assoc, lookup_app_l by (by rewrite length_insert).
  by apply list_lookup_insert_eq.
Qed.

Lemma fresh_refs_range (n : nat) (m : list (string * record)) (id : string) (l : loc) :
  (id, l) ∈ Store.fresh_refs n m → (n ≤ l < n + length m)%nat.
Proof.
  unfold Store.fresh_refs. intros H.
  apply elem_of_lookup_imap in H as (i & e & [= _ ->] & Hi).
  apply lookup_lt_Some in Hi. lia.
Qed.

(** [synch_data] leaves every dict object that existed before as it was, and
    the store refers to new objects only. *)
Theorem synch_data_allocates_fresh (w : world) (ge : Entities) :
  global_entities w = Some ge →
  ∃ ge' w',
    entity.global_synch_data w = (Ok tt, w') ∧
    global_entities w' = Some ge' ∧
    take (length (heap w)) (heap w') = heap w ∧
    length (heap w') = (length (heap w) + length (units ge) + length (tenants ge))%nat ∧
    ∀ id l, (id, l) ∈ units ge' ++ tenants ge' →
            (length (heap w) ≤ l < length (heap w'))%nat.
Proof.
  intros Hge. eexists _, _. split; [exact (synch_data_eq w ge Hge)|].
  cbn [global_entities heap]. split; [done|].
  split; [by rewrite <- app_assoc, take_app_length|].
  assert (Hlen : ∀ h (m : list (string * loc)),
            length (entity.dump_mapping h m).*2 = length m).
  { intros h m. unfold entity.dump_mapping. by rewrite !length_fmap. }
  cbn [doc_units doc_tenants].
  split; [by rewrite !length_app, !Hlen|].
  intros id l Hin. cbn [units tenants] in Hin.
  rewrite !length_app, !Hlen.
  apply elem_of_app in Hin as [Hin|Hin]; apply fresh_refs_range in Hin;
    rewrite ?length_app in Hin;
    unfold entity.dump_mapping in Hin; rewrite ?length_fmap in Hin; lia.
Qed.

Lemma Entities_init_eq (w : world) (path : string) (doc : document) :
  files w !! path = Some doc →
  entity.Entities_init path w =
    (Ok {| data_file := path;
           units := Store.fresh_refs (length (heap w)) (doc_units doc);
           tenants := Store.fresh_refs (length (heap w ++ (doc_units doc).*2))
                        (doc_tenants doc) |},
     {| heap := (heap w ++ (doc_units doc).*2) ++ (doc_tenants doc).*2;
        files := files w;
        global_entities :=
          Some {| data_file := path;
                  units := Store.fresh_refs (length (heap w)) (doc_units doc);
                  tenants := Store.fresh_refs (length (heap w ++ (doc_units doc).*2))
                               (doc_tenants doc) |};
        words := words w; shell := shell w; rand := rand w;
        trace := trace w ++ [EvReadFile path] |}).
Proof.
  intros Hf. unfold entity.Entities_init, entity.import_data. run_prog.
  cbn [data_file]. rewrite Hf. rewrite !load_mapping_eq.
  reflexivity.
Qed.

Lemma dump_loaded_units (h : list record) (us ts : list (string * record)) :
  entity.dump_mapping ((h ++ us.*2) ++ ts.*2) (Store.fresh_refs (length h) us) = us.
Proof.
  apply dump_fresh_refs. intros i r' Hi.
  pose proof (lookup_lt_Some _ _ _ Hi) as Hlt.
  rewrite lookup_app_l by (rewrite length_app; lia).
  rewrite lookup_app_r by lia.
  by replace (length h + i - length h)%nat with i by lia.
Qed.

Lemma dump_loaded_tenants (h : list record) (us ts : list (string * record)) :
  entity.dump_mapping ((h ++ us.*2) ++ ts.*2)
    (Store.fresh_refs (length (h ++ us.*2)) ts) = ts.
Proof.
  apply dump_fresh_refs. intros i r' Hi.
  rewrite lookup_app_r by lia.
  by replace (length (h ++ us.*2) + i - length (h ++ us.*2))%nat with i by lia.
Qed.

(** Loading the document and writing it back without a change in between
    gives the same document: the file is as it was. *)
Theorem load_then_dump_round_trip (w : world) (path : string) (doc : document) :
  files w !! path = Some doc →
  ∃ ent w1 w2,
    entity.Entities_init path w = (Ok ent, w1) ∧
    entity.global_synch_data w1 = (Ok tt, w2) ∧
    files w2 = files w ∧
    trace w2 = trace w ++ [EvReadFile path; EvWriteFile path doc; EvReadFile path].
Proof.
  intros Hf. eexists _, _, _.
  split; [exact (Entities_init_eq w path doc Hf)|].
  split; [by apply synch_data_eq|].
  cbn [heap files trace data_file units tenants].
  rewrite dump_loaded_units, dump_loaded_tenants.
  assert (Hdoc : {| doc_units := doc_units doc; doc_tenants := doc_tenants doc |} = doc)
    by (by destruct doc).
  rewrite Hdoc. split; [by apply insert_id|].
  by rewrite <- app_assoc.
Qed.

(** When the data file cannot be opened, [Entities(path)] raises and
    [global_entities] and the heap stay as they were. *)
Theorem Entities_init_missing_file (w : world) (path : string) :
  files w !! path = None →
  ∃ w',
    entity.Entities_init path w = (Raise OSError, w') ∧
    global_entities w' = global_entities w ∧
    heap w' = heap w ∧ files w' = files w.
Proof.
  intros Hf. exists (set_trace (trace w ++ [EvReadFile path]) w). split; [|done].
  unfold entity.Entities_init, entity.import_data. run_prog.
  cbn [data_file]. by rewrite Hf.
Qed.

(** An assignment through a view changes, in the document written, the
    record of that view only: every tenant and unit kept in another dict is
    written as the store has it. *)
Theorem set_password_leaves_other_records (w : world) (ge : Entities)
    (t : entity.Tenant) (v : value) :
  global_entities w = Some ge →
  ∃ w' doc,
    entity.set_password t v w = (Ok tt, w') ∧
    files w' !! data_file ge = Some doc ∧
    (∀ id l, entity.mapping_get (tenants ge) id = Ok l → l ≠ entity.data t →
             entity.mapping_get (doc_tenants doc) id = Ok (default ∅ (heap w !! l))) ∧
    (∀ id l, entity.mapping_get (units ge) id = Ok l → l ≠ entity.data t →
             entity.mapping_get (doc_units doc) id = Ok (default ∅ (heap w !! l))).
Proof.
  intros Hge. eexists _, _.
  split; [by apply set_password_written|].
  cbn [Store.written files]. split; [apply lookup_insert_eq|].
  cbn [Store.stored_doc doc_tenants doc_units].
  split; intros id l Hid Hne;
    rewrite (mapping_get_dump _ _ _ _ Hid); unfold Store.assigned;
    by rewrite list_lookup_insert_ne.
Qed.

(** ** Whitespace *)

Lemma rstrip_spaces s : Spec.all_chars Py.is_space s = true → Py.rstrip s = "".
Proof.
  induction s as [|c s IH]; [done|]. simpl. intros H.
  apply andb_true_iff in H as [Hc Hs]. by rewrite (IH Hs), Hc.
Qed.

Lemma lstrip_spaces s : Spec.all_chars Py.is_space s = true → Py.lstrip s = "".
Proof.
  induction s as [|c s IH]; [done|]. simpl. intros H.
  apply andb_true_iff in H as [Hc Hs]. by rewrite Hc, (IH Hs).
Qed.

Lemma strip_spaces s : Spec.all_chars Py.is_space s = true → Py.strip s = "".
Proof. intros H. unfold Py.strip. by rewrite (lstrip_spaces s H). Qed.

Lemma lstrip_not_spaces s :
  Spec.all_chars Py.is_space s = false →
  ∃ c rest, Py.lstrip s = String c rest ∧ Py.is_space c = false.
Proof.
  induction s as [|c s IH]; [done|]. simpl.
  destruct (Py.is_space c) eqn:Hc; [apply IH|]. intros _. by exists c, s.
Qed.

Lemma rstrip_keeps_head c rest :
  Py.is_space c = false → Py.rstrip (String c rest) ≠ "".
Proof.
  intros Hc. simpl. destruct (Py.rstrip rest); [by rewrite Hc|done].
Qed.

Lemma strip_not_spaces s :
  Spec.all_chars Py.is_space s = false → Py.strip s ≠ "".
Proof.
  intros H. destruct (lstrip_not_spaces s H) as (c & rest & Hl & Hc).
  unfold Py.strip. rewrite Hl. by apply rstrip_keeps_head.
Qed.

(** ** SpeakShellCommandOutput *)

(** A failing command is not caught: the exception leaves [run] and nothing
    is said.  An output of whitespace only counts as no output: the fallback
    is said if there is one, and nothing otherwise.  Any other output is said
    with the surrounding whitespace removed. *)
Theorem SpeakShellCommandOutput_run_cases (w : world)
    (self : SpeakShellCommandOutput.t) (voice_command out : string) (status : Z) :
  shell w (SpeakShellCommandOutput.shell_command self) = (status, out) →
  let asked := trace w ++ [EvShell (SpeakShellCommandOutput.shell_command self)] in
  (status ≠ 0 →
   SpeakShellCommandOutput.run self voice_command w =
     (Raise CalledProcessError, set_trace asked w)) ∧
  (status = 0 → Spec.all_chars Py.is_space out = true →
   SpeakShellCommandOutput.run self voice_command w =
     (Ok tt,
      if String.eqb (SpeakShellCommandOutput.failure_text self) ""
      then set_trace asked w
      else set_trace (asked ++ [EvSay (SpeakShellCommandOutput.failure_text self)]) w)) ∧
  (status = 0 → Spec.all_chars Py.is_space out = false →
   Py.strip out ≠ "" ∧
   SpeakShellCommandOutput.run self voice_command w =
     (Ok tt, set_trace (asked ++ [EvSay (Py.strip out)]) w)).
Proof.
  intros Hsh asked. unfold SpeakShellCommandOutput.run. run_prog. rewrite Hsh.
  split; [|split].
  - intros Hs. apply Z.eqb_neq in Hs. by rewrite Hs.
  - intros -> Hsp. cbn [Z.eqb]. rewrite (strip_spaces out Hsp). cbn [String.eqb negb].
    by destruct (String.eqb _ "").
  - intros -> Hsp. cbn [Z.eqb]. pose proof (strip_not_spaces out Hsp) as Hne.
    split; [done|]. apply String.eqb_neq in Hne. by rewrite Hne.
Qed.

(** ** RepeatAfterMe *)

Lemma replace_count_go_absent old new n s :
  Py.contains old s = false → Py.replace_count_go old new n 0 s = s.
Proof.
  induction s as [|c s IH]; [done|]. intros Hs.
  cbn [Py.replace_count_go]. destruct n; [done|].
  rewrite (contains_false_prefix _ _ Hs). f_equal. apply IH.
  by eapply contains_false_tail.
Qed.

Lemma replace_count_go_skip old new x rest :
  Py.replace_count_go old new 0 (String.length x) (x +:+ rest) = rest.
Proof.
  induction x as [|c x IH]; [by destruct rest|].
  change (String c x +:+ rest) with (String c (x +:+ rest)). by cbn.
Qed.

Lemma prefix_split x s :
  String.prefix x s = true → ∃ rest, s = x +:+ rest.
Proof.
  revert s. induction x as [|c x IH]; intros s Hp; [by exists s|].
  destruct s as [|b s]; [done|].
  apply prefix_cons in Hp as [-> Hp]. destruct (IH s Hp) as [rest ->].
  by exists rest.
Qed.

Lemma replace_first_found (c : ascii) (kw' new s : string) :
  Py.contains (String c kw') s = true →
  ∃ before rest,
    s = before +:+ String c kw' +:+ rest ∧
    Py.find (String c kw') s = Some (String.length before) ∧
    Py.replace_count_go (String c kw') new 1 0 s = before +:+ new +:+ rest.
Proof.
  induction s as [|a s IH]; intros Hc; [done|].
  destruct (String.prefix (String c kw') (String a s)) eqn:Hp.
  - destruct (prefix_split _ _ Hp) as [rest Hs].
    exists "", rest. split; [done|]. split.
    + cbn [Py.find]. by rewrite Hp.
    + cbn [Py.replace_count_go]. rewrite Hp.
      change ("" +:+ ?x) with x. f_equal.
      change (String c kw' +:+ rest) with (String c (kw' +:+ rest)) in Hs.
      injection Hs as _ ->.
      change (String.length (String c kw') - 1)%nat with (String.length kw' - 0)%nat.
      rewrite Nat.sub_0_r. apply replace_count_go_skip.
  - cbn [Py.contains] in Hc. rewrite Hp in Hc. cbn [orb] in Hc.
    destruct (IH Hc) as (before & rest & Hs & Hf & Hr).
    exists (String a before), rest. split; [|split].
    + change (String a before +:+ ?x) with (String a (before +:+ x)). by f_equal.
    + cbn [Py.find]. rewrite Hp, Hf. done.
    + cbn [Py.replace_count_go]. rewrite Hp.
      change (String a before +:+ ?x) with (String a (before +:+ x)). by f_equal.
Qed.

(** The keyword is taken out where it first occurs, as it is written, and
    nowhere else; when it does not occur letter for letter, the whole
    utterance is repeated. *)
Theorem RepeatAfterMe_run_removes_first_keyword (w : world) (self : RepeatAfterMe.t)
    (voice_command : string) :
  (Py.contains (RepeatAfterMe.keyword self) voice_command = false →
   RepeatAfterMe.run self voice_command w =
     (Ok tt, set_trace (trace w ++ [EvSay voice_command]) w)) ∧
  (Py.contains (RepeatAfterMe.keyword self) voice_command = true →
   ∃ before rest,
     voice_command = before +:+ RepeatAfterMe.keyword self +:+ rest ∧
     Py.find (RepeatAfterMe.keyword self) voice_command
       = Some (String.length before) ∧
     RepeatAfterMe.run self voice_command w =
       (Ok tt, set_trace (trace w ++ [EvSay (before +:+ rest)]) w)).
Proof.
  unfold RepeatAfterMe.run, Py.replace_count.
  destruct (RepeatAfterMe.keyword self) as [|c kw'] eqn:Hk.
  - split; intros _; [by destruct voice_command|].
    exists "", voice_command. by destruct voice_command.
  - split; intros Hc.
    + by rewrite (replace_count_go_absent _ _ _ _ Hc).
    + destruct (replace_first_found c kw' "" voice_command Hc)
        as (before & rest & Hs & Hf & Hr).
      exists before, rest. by rewrite Hr.
Qed.

(** ** VolumeControl, once the query has succeeded *)

(** Whatever the mixer printed, [run] returns normally, speaks exactly once
    and touches nothing but the mixer. *)
Theorem VolumeControl_run_speaks_once (w : world) (self : VolumeControl.t)
    (voice_command out : string) :
  shell w VolumeControl.GET_VOLUME = (0, out) →
  ∃ events text,
    VolumeControl.run self voice_command w = (Ok tt, set_trace (trace w ++ events) w) ∧
    Sample.heard_and_texted events = [EvSay text].
Proof.
  intros Hq.
  destruct (Py.int_of_str (Py.strip out)) as [v|e] eqn:Hp.
  - eexists _, _. split; [exact (VolumeControl_run_ok w self voice_command out v Hq Hp)|].
    reflexivity.
  - eexists _, _.
    split; [exact (VolumeControl_run_parse_failure w self voice_command out e Hq Hp)|].
    reflexivity.
Qed.

(** ** PageUnit *)

Lemma address_reads (w : world) (u : entity.Unit) (r : record) :
  heap w !! entity.data u = Some r →
  entity.address u w = (View.name_of r, w).
Proof. intros Hr. exact (name_reads w u r Hr). Qed.

Lemma paging_exception_reads (w : world) (u : entity.Entity) (r : record) :
  heap w !! entity.data u = Some r →
  entity.paging_exception u w =
    (Ok ((λ v, {| entity.pe_data := v |}) <$> r !! "paging_exception"), w).
Proof.
  intros Hr. unfold entity.paging_exception, entity.get_data. run_prog.
  rewrite Hr. cbn [default from_option]. unfold id.
  by destruct (r !! "paging_exception").
Qed.

Lemma PageUnit_run_eq (w : world) (self : PageUnit.t) (r : record)
    (address template voice_command : string) :
  heap w !! entity.data (PageUnit.unit self) = Some r →
  View.name_of r = Ok (VStr address) →
  PageUnit.self_responses self
    !! (draw w mod length (PageUnit.self_responses self))%nat = Some (VStr template) →
  PageUnit.run self voice_command w =
    (Ok (match r !! "paging_exception" with Some _ => VNone | None => VInt 1 end),
     set_trace
       (trace w ++
        [EvSay (Py.replace PageUnit.entity_token (PageUnit.say_unit address) template)])
       (set_rand (tail (rand w)) w)).
Proof.
  intros Hr Ha Ht. unfold PageUnit.run.
  unfold mbind, M_bind at 1. rewrite (choice_eq _ _ _ Ht).
  unfold mbind, M_bind at 1. unfold lift at 1. cbn [str_receiver].
  unfold mbind, M_bind at 1.
  rewrite (address_reads (set_rand (tail (rand w)) w) _ r Hr), Ha.
  unfold mbind, M_bind at 1. unfold lift at 1. cbn [as_str].
  unfold mbind, M_bind at 1. unfold say, emit, modify at 1.
  unfold mbind, M_bind at 1. cbn [trace set_rand].
  set (w1 := set_trace _ _).
  rewrite (paging_exception_reads w1 (PageUnit.unit self) r Hr).
  unfold entity.pe_run, mret, M_ret.
  by destruct (r !! "paging_exception").
Qed.

(** Without a paging exception [PageUnit] announces the unit with one of
    its four phrases and returns 1; with a paging exception whose message is
    a single string it says that message and returns [None].  In both cases
    [$unit] is replaced by the spoken unit number, and the store is left
    alone. *)
Theorem PageUnit_run_announces (w : world) (u : entity.Unit) (r : record)
    (address voice_command : string) :
  heap w !! entity.data u = Some r →
  View.name_of r = Ok (VStr address) →
  (r !! "paging_exception" = None →
   ∃ self template w',
     PageUnit.init u w = (Ok self, w) ∧ template ∈ PageUnit.responses ∧
     PageUnit.run self voice_command w = (Ok (VInt 1), w') ∧
     trace w' = trace w ++
       [EvSay (Py.replace "$unit" (PageUnit.say_unit address) template)] ∧
     heap w' = heap w ∧ files w' = files w) ∧
  (∀ d message,
     r !! "paging_exception" = Some (VDict d) →
     d !! "message" = Some (VStr message) →
     ∃ self w',
       PageUnit.init u w = (Ok self, w) ∧
       PageUnit.run self voice_command w = (Ok VNone, w') ∧
       trace w' = trace w ++
         [EvSay (Py.replace "$unit" (PageUnit.say_unit address) message)] ∧
       heap w' = heap w ∧ files w' = files w).
Proof.
  intros Hr Ha. split.
  - intros Hpe.
    assert (Hinit : PageUnit.init u w =
              (Ok {| PageUnit.unit := u;
                     PageUnit.self_responses := VStr <$> PageUnit.responses |}, w)).
    { unfold PageUnit.init. unfold mbind, M_bind at 1.
      by rewrite (paging_exception_reads w u r Hr), Hpe. }
    destruct (choice_nonempty PageUnit.responses w ltac:(done)) as [template Ht].
    eexists _, template, _. split; [exact Hinit|].
    split; [by eapply list_elem_of_lookup_2|].
    assert (Hrun := PageUnit_run_eq w
      {| PageUnit.unit := u; PageUnit.self_responses := VStr <$> PageUnit.responses |}
      r address template voice_command Hr Ha).
    cbn [PageUnit.self_responses] in Hrun.
    rewrite length_fmap, list_lookup_fmap, Ht, Hpe in Hrun.
    specialize (Hrun eq_refl).
    split; [exact Hrun|done].
  - intros d message Hpe Hd.
    assert (Hinit : PageUnit.init u w =
              (Ok {| PageUnit.unit := u; PageUnit.self_responses := [VStr message] |}, w)).
    { eapply init_with_exception_unit; [done..|].
      unfold entity.message. cbn [entity.pe_data subscript]. by rewrite Hd. }
    assert (Hrun := PageUnit_run_eq w
      {| PageUnit.unit := u; PageUnit.self_responses := [VStr message] |}
      r address message voice_command Hr Ha).
    cbn [PageUnit.self_responses length] in Hrun.
    rewrite Nat.mod_1_r, Hpe in Hrun. specialize (Hrun eq_refl).
    eexists _, _. split; [exact Hinit|]. split; [exact Hrun|done].
Qed.

(** A paging exception whose message is an empty list is accepted when the
    handler is built, and then every call of [run] raises [IndexError] with
    nothing said. *)
Theorem PageUnit_run_empty_message_list (w : world) (u : entity.Unit) (r : record)
    (d : gmap string value) :
  heap w !! entity.data u = Some r →
  r !! "paging_exception" = Some (VDict d) →
  d !! "message" = Some (VList []) →
  ∃ self,
    PageUnit.init u w = (Ok self, w) ∧
    ∀ w' voice_command,
      ∃ w'', PageUnit.run self voice_command w' = (Raise IndexError, w'') ∧
             trace w'' = trace w'.
Proof.
  intros Hr Hpe Hd. eexists. split.
  - eapply init_with_exception_unit; [done..|].
    unfold entity.message. cbn [entity.pe_data subscript]. by rewrite Hd.
  - intros w' cmd. exists (set_rand (tail (rand w')) w'). split; [|done].
    unfold PageUnit.run, choice. run_prog. reflexivity.
Qed.

(** ** Rotation: Password.new_word and RequestPassword *)

Lemma password_of_blank (r : record) :
  View.password_of (<["password" := VStr ""]> r) = VStr entity.default_password.
Proof. unfold View.password_of. by rewrite lookup_insert_eq. Qed.

Lemma phone_of_after_password (r : record) (v : value) :
  View.phone_of (<["password" := v]> r) = View.phone_of r.
Proof. unfold View.phone_of. by rewrite lookup_insert_ne. Qed.

Lemma name_of_after_password (r : record) (v : value) :
  View.name_of (<["password" := v]> r) = View.name_of r.
Proof. unfold View.name_of. by rewrite lookup_insert_ne. Qed.

(** A blank line of the word list makes an empty password, which reads as
    the sentinel: the sentinel is what is texted to the tenant and what
    [new_word] returns. *)
Theorem new_word_blank_line_texts_sentinel (w : world) (ge : Entities)
    (t : entity.Tenant) (r : record) (line : string) :
  heap w !! entity.data t = Some r →
  global_entities w = Some ge →
  words w !! (draw w mod length (words w))%nat = Some line →
  Spec.all_chars Py.is_space line = true →
  ∃ doc w',
    Password.new_word t w = (Ok (VStr entity.default_password), w') ∧
    trace w' = trace w ++
      [EvWriteFile (data_file ge) doc; EvReadFile (data_file ge);
       EvSendText (View.phone_of r) (VStr entity.default_password)] ∧
    heap w' !! entity.data t = Some (<["password" := VStr ""]> r).
Proof.
  intros Hr Hge Hline Hsp.
  pose proof (new_word_eq w ge t r line Hr Hge Hline) as Hnw. cbv zeta in Hnw.
  rewrite (rstrip_spaces line Hsp) in Hnw.
  rewrite password_of_blank, phone_of_after_password in Hnw.
  eexists _, _. split; [exact Hnw|].
  cbn [trace set_trace Store.written heap].
  split; [by rewrite <- app_assoc|].
  pose proof (lookup_lt_Some _ _ _ Hr) as Hlt.
  unfold Store.assigned. cbn [set_rand heap].
  rewrite <- app_assoc, lookup_app_l by (by rewrite length_insert).
  rewrite list_lookup_insert_eq by done. by rewrite Hr.
Qed.

(** With an empty word list the rotation fails before anything is assigned,
    written or sent. *)
Theorem new_word_empty_word_list (w : world) (t : entity.Tenant) :
  words w = [] →
  ∃ w',
    Password.new_word t w = (Raise IndexError, w') ∧
    trace w' = trace w ∧ heap w' = heap w ∧ files w' = files w.
Proof.
  intros Hw. exists (set_rand (tail (rand w)) w). split; [|done].
  unfold Password.new_word, choice. run_prog. by rewrite Hw.
Qed.

(** [RequestPassword] rotates first and speaks afterwards: the document is
    written and read back, the new password is texted, and only then the
    confirmation with the tenant's name is said. *)
Theorem RequestPassword_run_texts_then_speaks (w : world) (ge : Entities)
    (self : RequestPassword.t) (r : record) (name voice_command : string) :
  heap w !! entity.data (RequestPassword.tenant self) = Some r →
  global_entities w = Some ge →
  words w ≠ [] →
  View.name_of r = Ok (VStr name) →
  ∃ line doc phrase w',
    line ∈ words w ∧ phrase ∈ RequestPassword.responses ∧
    RequestPassword.run self voice_command w = (Ok tt, w') ∧
    trace w' = trace w ++
      [EvWriteFile (data_file ge) doc; EvReadFile (data_file ge);
       EvSendText (View.phone_of r)
         (View.password_of (<["password" := VStr (Py.rstrip line)]> r));
       EvSay (Py.replace "$tenant" name phrase)] ∧
    files w' !! data_file ge = Some doc.
Proof.
  intros Hr Hge Hw Hname.
  destruct (new_word_rotates w ge (RequestPassword.tenant self) r Hr Hge Hw)
    as (line & doc & w1 & Hline & Hnw & Htr & Hheap & Hfile).
  destruct (choice_nonempty RequestPassword.responses w1 ltac:(done)) as [phrase Hph].
  exists line, doc, phrase.
  eexists. split; [done|]. split; [by eapply list_elem_of_lookup_2|].
  split.
  - unfold RequestPassword.run.
    unfold mbind, M_bind at 1. rewrite Hnw.
    unfold mbind, M_bind at 1. rewrite (choice_eq _ _ _ Hph).
    unfold mbind, M_bind at 1.
    rewrite (name_reads (set_rand (tail (rand w1)) w1) _ _ Hheap).
    rewrite name_of_after_password, Hname.
    unfold mbind, M_bind, lift, say, emit, modify. cbn [as_str]. reflexivity.
  - cbn [trace set_trace set_rand files]. rewrite Htr, phone_of_after_password.
    split; [by rewrite <- app_assoc|done].
Qed.

(** ** GainEntry without a password on file *)

(** The sentinel is an ordinary string: for a tenant without a password, an
    utterance that contains it passes the check and starts a rotation. *)
Theorem GainEntry_run_sentinel_passes (w : world) (ge : Entities)
    (self : GainEntry.t) (r : record) (name voice_command : string) :
  heap w !! entity.data (GainEntry.tenant self) = Some r →
  global_entities w = Some ge →
  words w ≠ [] →
  r !! "password" = None →
  View.name_of r = Ok (VStr name) →
  Py.contains entity.default_password (Py.lower voice_command) = true →
  ∃ phrase line doc to new_pw w',
    phrase ∈ GainEntry.pass_responses ∧ line ∈ words w ∧
    GainEntry.run self voice_command w = (Ok 1, w') ∧
    trace w' = trace w ++
      [EvSay (Spec.success_phrase name entity.default_password phrase);
       EvWriteFile (data_file ge) doc; EvReadFile (data_file ge);
       EvSendText to new_pw] ∧
    heap w' !! entity.data (GainEntry.tenant self)
      = Some (<["password" := VStr (Py.rstrip line)]> r).
Proof.
  intros Hr Hge Hw Hnone Hname Hm.
  assert (Hpw : View.password_of r = VStr entity.default_password).
  { unfold View.password_of. by rewrite Hnone. }
  destruct (GainEntry_run_passes w ge self r _ name voice_command
              Hr Hge Hw Hpw Hname Hm)
    as (phrase & line & doc & to & new_pw & w' & ? & ? & ? & ? & ? & ?).
  by exists phrase, line, doc, to, new_pw, w'.
Qed.

(** ** say_unit on addresses that do not start with their number *)

Lemma findall_go_skip_no_digits pre s :
  Spec.all_chars Spec.not_digit pre = true →
  Py.findall_digits_go None (pre +:+ s) = Py.findall_digits_go None s.
Proof.
  induction pre as [|c pre IH]; [done|]. simpl. intros H.
  apply andb_true_iff in H as [Hc Hpre]. unfold Spec.not_digit in Hc.
  apply negb_true_iff in Hc.
  change (String c pre +:+ s) with (String c (pre +:+ s)).
  cbn [Py.findall_digits_go]. rewrite Hc. by apply IH.
Qed.

Lemma findall_go_run_ends run rest :
  Spec.starts_with_digit rest = false →
  ∃ more, Py.findall_digits_go (Some run) rest = run :: more.
Proof.
  destruct rest as [|c rest]; simpl; intros H; [by exists []|].
  rewrite H. by eexists.
Qed.

Lemma findall_first_run pre c ds rest :
  Spec.all_chars Spec.not_digit pre = true →
  Spec.all_chars Py.is_digit (String c ds) = true →
  Spec.starts_with_digit rest = false →
  ∃ more, Py.findall_digits (pre +:+ String c ds +:+ rest) = String c ds :: more.
Proof.
  intros Hpre Hds Hrest. unfold Py.findall_digits.
  rewrite (findall_go_skip_no_digits pre _ Hpre).
  simpl in Hds. apply andb_true_iff in Hds as [Hc Hds].
  change (String c ds +:+ rest) with (String c (ds +:+ rest)).
  cbn [Py.findall_digits_go]. rewrite Hc.
  rewrite (findall_go_digits _ _ _ Hds).
  by apply findall_go_run_ends.
Qed.

Lemma index_head {A} (x : A) (l : list A) : Py.index (x :: l) 0 = Ok x.
Proof.
  unfold Py.index. change (0 <? 0) with false. cbv beta iota zeta.
  change (0 <=? 0) with true. cbn [andb length].
  destruct (Z.ltb_spec 0 (Z.of_nat (S (length l)))); [done|lia].
Qed.

(** When the address does not start with a digit, the first digit run is
    still pronounced, but no suffix is taken: the result ends with the space
    that precedes the suffix. *)
Theorem say_unit_number_not_leading (a : ascii) (pre ds rest : string) :
  Py.is_digit a = false →
  Spec.all_chars Spec.not_digit pre = true →
  ds ≠ "" →
  Spec.all_chars Py.is_digit ds = true →
  Spec.starts_with_digit rest = false →
  Spec.decimal ds < 2 ^ 52 →
  PageUnit.say_unit (String a pre +:+ ds +:+ rest) =
    Py.str_of_int (Spec.decimal ds / 100) +:+ " " +:+
    Py.str_of_int (Spec.decimal ds mod 100) +:+ " ".
Proof.
  intros Ha Hpre Hne Hds Hrest Hlt.
  destruct ds as [|c ds]; [done|].
  assert (Hnn : 0 <= Spec.decimal (String c ds)) by (by apply decimal_from_nonneg).
  assert (Hpre' : Spec.all_chars Spec.not_digit (String a pre) = true).
  { simpl. unfold Spec.not_digit at 1. by rewrite Ha, Hpre. }
  destruct (findall_first_run (String a pre) c ds rest Hpre' Hds Hrest) as [more Hfind].
  unfold PageUnit.say_unit, PageUnit.say_unit_try.
  rewrite Hfind, index_head.
  unfold mbind, result_bind, rbind.
  rewrite (int_of_str_digits (String c ds) Hds) by done.
  rewrite (int_of_true_div_100 _ (conj Hnn Hlt)).
  assert (Hm : Py.match_digits_letters (String a pre +:+ String c ds +:+ rest) = None).
  { unfold Py.match_digits_letters.
    change (String a pre +:+ ?x) with (String a (pre +:+ x)).
    cbn [Py.span]. rewrite Ha. by destruct (Py.span Py.is_alpha _). }
  rewrite Hm, percent_unit, Z.mod_eq by lia.
  by replace (Spec.decimal (String c ds) - Spec.decimal (String c ds) / 100 * 100)
    with (Spec.decimal (String c ds) - 100 * (Spec.decimal (String c ds) / 100)) by lia.
Qed.

(** ** More about the time phrase *)

Lemma time_phrase_afternoon_table :
  forallb (λ h, forallb (λ m,
    String.eqb (Spec.time_phrase (h + 12) m) (Spec.time_phrase h m)) (seqZ 0 60))
    (seqZ 1 10) = true.
Proof. vm_compute. reflexivity. Qed.

(** The phrase does not tell morning from afternoon: from 1 to 10 o'clock,
    the hour twelve hours later reads the same at every minute. *)
Theorem to_str_same_twelve_hours_later (hour minute : Z) :
  1 <= hour <= 10 → 0 <= minute < 60 →
  SpeakTime.to_str (hour + 12) minute = SpeakTime.to_str hour minute.
Proof.
  intros Hh Hm. rewrite !to_str_in_range by lia. f_equal.
  apply String.eqb_eq.
  pose proof time_phrase_afternoon_table as T.
  rewrite forallb_forall in T.
  assert (Hin : In hour (seqZ 1 10)) by (apply list_elem_of_In, elem_of_seqZ; lia).
  specialize (T hour Hin). rewrite forallb_forall in T.
  apply T. apply list_elem_of_In, elem_of_seqZ. lia.
Qed.

Lemma time_phrase_midnight_table :
  forallb (λ h, forallb (λ m,
    Bool.eqb (Py.contains "midnight" (Spec.time_phrase h m)) (Spec.around_midnight h m))
    (seqZ 0 60)) (seqZ 0 24) = true.
Proof. vm_compute. reflexivity. Qed.

(** The word "midnight" is said exactly from 23:33 to 0:32; at every other
    time, noon included, the hour has its number. *)
Theorem to_str_midnight_only_around_zero (hour minute : Z) :
  0 <= hour < 24 → 0 <= minute < 60 →
  ∃ phrase,
    SpeakTime.to_str hour minute = Ok phrase ∧
    (Py.contains "midnight" phrase = true ↔
     (hour = 0 ∧ minute <= 32) ∨ (hour = 23 ∧ 33 <= minute)).
Proof.
  intros Hh Hm. exists (Spec.time_phrase hour minute).
  split; [by apply to_str_in_range|].
  pose proof time_phrase_midnight_table as T.
  rewrite forallb_forall in T.
  assert (Hin : In hour (seqZ 0 24)) by (apply list_elem_of_In, elem_of_seqZ; lia).
  specialize (T hour Hin). rewrite forallb_forall in T.
  assert (Hin' : In minute (seqZ 0 60)) by (apply list_elem_of_In, elem_of_seqZ; lia).
  specialize (T minute Hin'). apply Bool.eqb_prop in T. rewrite T.
  unfold Spec.around_midnight.
  rewrite orb_true_iff, !andb_true_iff, !Z.eqb_eq, !Z.leb_le. done.
Qed.

(** ** Synonyms and names *)

Lemma lower_char_idem c : Py.lower_char (Py.lower_char c) = Py.lower_char c.
Proof. destruct c as [[] [] [] [] [] [] [] []]; reflexivity. Qed.

Lemma lower_idem s : Py.lower (Py.lower s) = Py.lower s.
Proof.
  induction s as [|c s IH]; [done|]. simpl. by rewrite lower_char_idem, IH.
Qed.

Lemma synonyms_of_strings (ss : list string) :
  entity.synonyms_of (VList (VStr <$> ss)) = Ok (Py.lower <$> ss).
Proof.
  unfold entity.synonyms_of.
  induction ss as [|s ss IH]; [done|].
  cbn [fmap list_fmap mapM]. unfold mbind at 1, result_bind at 1, rbind at 1.
  by rewrite IH.
Qed.

(** The synonyms registered as keyword phrases are all lowercase, while the
    spoken name is the first synonym as it is written in the document. *)
Theorem synonyms_lowercase_name_verbatim (w : world) (e : entity.Entity)
    (r : record) (s : string) (ss : list string) :
  heap w !! entity.data e = Some r →
  r !! "synonyms" = Some (VList (VStr <$> s :: ss)) →
  entity.synonyms e w = (Ok (Py.lower <$> s :: ss), w) ∧
  Forall (λ phrase, Py.lower phrase = phrase) (Py.lower <$> s :: ss) ∧
  entity.name e w = (Ok (VStr s), w).
Proof.
  intros Hr Hs. split; [|split].
  - unfold entity.synonyms, entity.field, entity.get_data. run_prog.
    rewrite Hr. cbn [default from_option]. unfold id. rewrite Hs.
    by rewrite synonyms_of_strings.
  - apply Forall_fmap, Forall_forall. intros x _. apply lower_idem.
  - rewrite (name_reads w e r Hr). unfold View.name_of. by rewrite Hs.
Qed.

(** ** make_actor *)







(** ** The properties above, on the sample worlds *)

Lemma Tenant_password_assign_then_read_witness :
  ∃ w',
    entity.set_password {| entity.data := 1%nat |} (VStr "alpha") (Sample.loaded [])
      = (Ok tt, w') ∧
    entity.password {| entity.data := 1%nat |} w' = (Ok (VStr "alpha"), w').
Proof.
  apply (Tenant_password_assign_then_read (Sample.loaded []) Sample.loaded_entities
           {| entity.data := 1%nat |} (VStr "alpha")).
  - reflexivity.
  - cbn. lia.
Defined.

Lemma synch_data_allocates_fresh_witness :
  ∃ ge' w',
    entity.global_synch_data (Sample.loaded []) = (Ok tt, w') ∧
    global_entities w' = Some ge' ∧
    take 2 (heap w') = heap (Sample.loaded []) ∧
    length (heap w') = 4%nat ∧
    ∀ id l, (id, l) ∈ units ge' ++ tenants ge' → (2 ≤ l < length (heap w'))%nat.
Proof.
  apply (synch_data_allocates_fresh (Sample.loaded []) Sample.loaded_entities).
  reflexivity.
Defined.

Lemma load_then_dump_round_trip_witness :
  ∃ ent w1 w2,
    entity.Entities_init Sample.path (Sample.installed Sample.directory []) = (Ok ent, w1) ∧
    entity.global_synch_data w1 = (Ok tt, w2) ∧
    files w2 = files (Sample.installed Sample.directory []) ∧
    trace w2 =
      [EvReadFile Sample.path; EvWriteFile Sample.path Sample.directory;
       EvReadFile Sample.path].
Proof.
  apply (load_then_dump_round_trip (Sample.installed Sample.directory [])
           Sample.path Sample.directory).
  reflexivity.
Defined.

Lemma Entities_init_missing_file_witness :
  ∃ w',
    entity.Entities_init Sample.path (Sample.bare Sample.broken_shell)
      = (Raise OSError, w') ∧
    global_entities w' = None ∧ heap w' = [] ∧ files w' = ∅.
Proof.
  apply (Entities_init_missing_file (Sample.bare Sample.broken_shell) Sample.path).
  reflexivity.
Defined.

Lemma set_password_leaves_other_records_witness :
  ∃ w' doc,
    entity.set_password {| entity.data := 1%nat |} (VStr "alpha") (Sample.loaded [])
      = (Ok tt, w') ∧
    files w' !! Sample.path = Some doc ∧
    (∀ id l, entity.mapping_get [("Bryan", 1%nat)] id = Ok l → l ≠ 1%nat →
             entity.mapping_get (doc_tenants doc) id
               = Ok (default ∅ (heap (Sample.loaded []) !! l))) ∧
    (∀ id l, entity.mapping_get [("453A", 0%nat)] id = Ok l → l ≠ 1%nat →
             entity.mapping_get (doc_units doc) id
               = Ok (default ∅ (heap (Sample.loaded []) !! l))).
Proof.
  apply (set_password_leaves_other_records (Sample.loaded []) Sample.loaded_entities
           {| entity.data := 1%nat |} (VStr "alpha")).
  reflexivity.
Defined.

Lemma Tenant_password_first_write_persisted_witness :
  ∃ w1 doc r,
    entity.set_password {| entity.data := 1%nat |} (VStr "alpha") (Sample.loaded [])
      = (Ok tt, w1) ∧
    files w1 !! Sample.path = Some doc ∧
    entity.mapping_get (doc_tenants doc) "Bryan" = Ok r ∧
    r !! "password" = Some (VStr "alpha").
Proof.
  apply (Tenant_password_first_write_persisted (Sample.loaded [])
           Sample.loaded_entities {| entity.data := 1%nat |} "Bryan" (VStr "alpha")).
  - reflexivity.
  - cbn. lia.
  - reflexivity.
Defined.

Lemma SpeakShellCommandOutput_run_cases_witness :
  SpeakShellCommandOutput.run Sample.speak_ip "ip address" (Sample.bare Sample.offline) =
    (Ok tt,
     set_trace
       [EvShell Sample.ip_command; EvSay "I do not have an ip address assigned to me."]
       (Sample.bare Sample.offline)).
Proof.
  exact (proj1 (proj2 (SpeakShellCommandOutput_run_cases (Sample.bare Sample.offline)
           Sample.speak_ip "ip address" (" " +:+ Sample.newline) 0 eq_refl))
           eq_refl eq_refl).
Defined.

Lemma RepeatAfterMe_run_removes_first_keyword_witness :
  ∃ before rest,
    "computer, repeat after me hello repeat after me"
      = before +:+ "repeat after me" +:+ rest ∧
    Py.find "repeat after me" "computer, repeat after me hello repeat after me"
      = Some (String.length before) ∧
    RepeatAfterMe.run {| RepeatAfterMe.keyword := "repeat after me" |}
        "computer, repeat after me hello repeat after me"
        (Sample.bare Sample.broken_shell) =
      (Ok tt, set_trace [EvSay (before +:+ rest)] (Sample.bare Sample.broken_shell)).
Proof.
  exact (proj2 (RepeatAfterMe_run_removes_first_keyword (Sample.bare Sample.broken_shell)
           {| RepeatAfterMe.keyword := "repeat after me" |}
           "computer, repeat after me hello repeat after me") eq_refl).
Defined.

Lemma VolumeControl_run_speaks_once_witness :
  ∃ events text,
    VolumeControl.run {| VolumeControl.change := 10 |} "volume up"
        (Sample.bare (Sample.mixer "n/a")) =
      (Ok tt, set_trace (trace (Sample.bare (Sample.mixer "n/a")) ++ events)
                (Sample.bare (Sample.mixer "n/a"))) ∧
    Sample.heard_and_texted events = [EvSay text].
Proof.
  apply (VolumeControl_run_speaks_once (Sample.bare (Sample.mixer "n/a"))
           {| VolumeControl.change := 10 |} "volume up" ("n/a" +:+ Sample.newline)).
  reflexivity.
Defined.

Lemma PageUnit_run_announces_witness :
  ∃ self w',
    PageUnit.init {| entity.data := 0%nat |} (Sample.with_heap [Sample.away_unit])
      = (Ok self, Sample.with_heap [Sample.away_unit]) ∧
    PageUnit.run self "453a" (Sample.with_heap [Sample.away_unit]) = (Ok VNone, w') ∧
    trace w' = trace (Sample.with_heap [Sample.away_unit]) ++
      [EvSay (Py.replace "$unit" (PageUnit.say_unit "453a") "unit $unit is away")] ∧
    heap w' = heap (Sample.with_heap [Sample.away_unit]) ∧
    files w' = files (Sample.with_heap [Sample.away_unit]).
Proof.
  apply (proj2 (PageUnit_run_announces (Sample.with_heap [Sample.away_unit])
           {| entity.data := 0%nat |} Sample.away_unit "453a" "453a" eq_refl eq_refl)
           (<["message" := VStr "unit $unit is away"]> ∅) "unit $unit is away").
  - reflexivity.
  - reflexivity.
Defined.

Lemma PageUnit_run_empty_message_list_witness :
  ∃ self,
    PageUnit.init {| entity.data := 0%nat |} (Sample.with_heap [Sample.silent_unit])
      = (Ok self, Sample.with_heap [Sample.silent_unit]) ∧
    ∀ w' voice_command,
      ∃ w'', PageUnit.run self voice_command w' = (Raise IndexError, w'') ∧
             trace w'' = trace w'.
Proof.
  apply (PageUnit_run_empty_message_list (Sample.with_heap [Sample.silent_unit])
           {| entity.data := 0%nat |} Sample.silent_unit (<["message" := VList []]> ∅)).
  - reflexivity.
  - reflexivity.
  - reflexivity.
Defined.

Lemma new_word_blank_line_texts_sentinel_witness :
  ∃ doc w',
    Password.new_word {| entity.data := 1%nat |}
        (Sample.door_with_words ["alpha"; " " +:+ Sample.newline] "alpha" [1]%nat)
      = (Ok (VStr entity.default_password), w') ∧
    trace w' =
      [EvWriteFile Sample.path doc; EvReadFile Sample.path;
       EvSendText (VStr "+15550100") (VStr entity.default_password)] ∧
    heap w' !! 1%nat = Some (<["password" := VStr ""]> (Sample.bryan_with "alpha")).
Proof.
  apply (new_word_blank_line_texts_sentinel
           (Sample.door_with_words ["alpha"; " " +:+ Sample.newline] "alpha" [1]%nat)
           Sample.loaded_entities {| entity.data := 1%nat |} (Sample.bryan_with "alpha")
           (" " +:+ Sample.newline)).
  - reflexivity.
  - reflexivity.
  - reflexivity.
  - reflexivity.
Defined.

Lemma new_word_empty_word_list_witness :
  ∃ w',
    Password.new_word {| entity.data := 1%nat |}
        (Sample.door_with_words [] "alpha" []) = (Raise IndexError, w') ∧
    trace w' = [] ∧
    heap w' = heap (Sample.door_with_words [] "alpha" []) ∧
    files w' = files (Sample.door_with_words [] "alpha" []).
Proof.
  apply (new_word_empty_word_list (Sample.door_with_words [] "alpha" [])
           {| entity.data := 1%nat |}).
  reflexivity.
Defined.

Lemma RequestPassword_run_texts_then_speaks_witness :
  ∃ line doc phrase w',
    line ∈ words (Sample.door "alpha" [1; 2]%nat) ∧
    phrase ∈ RequestPassword.responses ∧
    RequestPassword.run Sample.request_password "i forgot my password"
        (Sample.door "alpha" [1; 2]%nat) = (Ok tt, w') ∧
    trace w' = trace (Sample.door "alpha" [1; 2]%nat) ++
      [EvWriteFile Sample.path doc; EvReadFile Sample.path;
       EvSendText (View.phone_of (Sample.bryan_with "alpha"))
         (View.password_of
            (<["password" := VStr (Py.rstrip line)]> (Sample.bryan_with "alpha")));
       EvSay (Py.replace "$tenant" "Bryan" phrase)] ∧
    files w' !! Sample.path = Some doc.
Proof.
  apply (RequestPassword_run_texts_then_speaks (Sample.door "alpha" [1; 2]%nat)
           Sample.loaded_entities Sample.request_password (Sample.bryan_with "alpha")
           "Bryan" "i forgot my password").
  - reflexivity.
  - reflexivity.
  - discriminate.
  - reflexivity.
Defined.

Lemma GainEntry_run_sentinel_passes_witness :
  ∃ phrase line doc to new_pw w',
    phrase ∈ GainEntry.pass_responses ∧ line ∈ words (Sample.loaded [0; 0]%nat) ∧
    GainEntry.run Sample.gain_entry "let me in asdfqlwevnwaevnwlvjwekfnsedhsadhfwe"
        (Sample.loaded [0; 0]%nat) = (Ok 1, w') ∧
    trace w' = trace (Sample.loaded [0; 0]%nat) ++
      [EvSay (Spec.success_phrase "Bryan" entity.default_password phrase);
       EvWriteFile Sample.path doc; EvReadFile Sample.path;
       EvSendText to new_pw] ∧
    heap w' !! 1%nat = Some (<["password" := VStr (Py.rstrip line)]> Sample.bryan).
Proof.
  apply (GainEntry_run_sentinel_passes (Sample.loaded [0; 0]%nat)
           Sample.loaded_entities Sample.gain_entry Sample.bryan "Bryan"
           "let me in asdfqlwevnwaevnwlvjwekfnsedhsadhfwe").
  - reflexivity.
  - reflexivity.
  - discriminate.
  - reflexivity.
  - reflexivity.
  - reflexivity.
Defined.

Lemma say_unit_number_not_leading_witness :
  PageUnit.say_unit "apt 453-B" = "4 53 ".
Proof.
  exact (say_unit_number_not_leading "a"%char "pt " "453" "-B"
           eq_refl eq_refl ltac:(discriminate) eq_refl eq_refl eq_refl).
Defined.

Lemma to_str_same_twelve_hours_later_witness :
  SpeakTime.to_str 15 20 = SpeakTime.to_str 3 20.
Proof.
  exact (to_str_same_twelve_hours_later 3 20 ltac:(lia) ltac:(lia)).
Defined.

Lemma to_str_midnight_only_around_zero_witness :
  ∃ phrase,
    SpeakTime.to_str 12 0 = Ok phrase ∧
    (Py.contains "midnight" phrase = true ↔ (12 = 0 ∧ 0 <= 32) ∨ (12 = 23 ∧ 33 <= 0)).
Proof.
  exact (to_str_midnight_only_around_zero 12 0 ltac:(lia) ltac:(lia)).
Defined.

Lemma synonyms_lowercase_name_verbatim_witness :
  entity.synonyms {| entity.data := 1%nat |} (Sample.loaded [])
    = (Ok ["bryan"; "brian"], Sample.loaded []) ∧
  Forall (λ phrase, Py.lower phrase = phrase) ["bryan"; "brian"] ∧
  entity.name {| entity.data := 1%nat |} (Sample.loaded [])
    = (Ok (VStr "Bryan"), Sample.loaded []).
Proof.
  exact (synonyms_lowercase_name_verbatim (Sample.loaded []) {| entity.data := 1%nat |}
           Sample.bryan "Bryan" ["Brian"] eq_refl eq_refl).
Defined.

